(** * A shallow embedding of [models/recommendation_engine.py]

    The class [RecommendationEngine] keeps three pieces of state: the
    product catalog ([products_df]), the interaction log
    ([interactions_df]) and the dense similarity matrix
    ([product_similarity_matrix]).  Its methods are embedded as
    computations in a state monad over that record.

    Conventions of the embedding:
    - a pandas DataFrame is the list of its rows, in row order, the row
      label being the row position (the frames of this program carry a
      default RangeIndex);
    - a float64 is the rational number it denotes, and float arithmetic is
      exact rational arithmetic (no rounding, no NaN);
    - a Python [int] is a [Z], a [str] a [string], a [set] of strings a
      [gset string];
    - the order in which CPython enumerates a set of strings depends on the
      string-hash seed of the process; it is a parameter [set_iter] of the
      one method that loops over a set.

    The validators of [validators/validators.py], the [bool] helpers of
    [utils/helpers.py] and the methods of [RecommendationService]
    ([services/recommendation_service.py]) that call the engine are
    embedded after the engine. *)

From Stdlib Require Import QArith Qminmax Qround Sorted Lqa.
From stdpp Require Import base list strings gmap sorting pretty.

(** ** Data model *)

Module Product.
(** One row of [products_df] (the columns of [sample_products.csv]). *)
Record t : Type := mk {
  product_id : string;
  name : string;
  category : string;
  price : Q;
  rating : Q;
  views : Z;
  purchases : Z
}.
End Product.

Module Interaction.
(** One row of [interactions_df]. *)
Record t : Type := mk {
  user_id : string;
  product_id : string;
  interaction_type : string;
  rating : option Q;
  timestamp : string
}.
End Interaction.

Module Similar.
(** The dict built by [get_similar_products] for each neighbour. *)
Record t : Type := mk {
  product_id : string;
  name : string;
  category : string;
  price : Q;
  rating : Q;
  similarity_score : Q
}.
End Similar.

Module Trending.
(** The dict built by [get_trending_products] for each row. *)
Record t : Type := mk {
  product_id : string;
  name : string;
  category : string;
  price : Q;
  rating : Q;
  views : Z;
  purchases : Z
}.
End Trending.

Module CategoryItem.
(** The dict built by [get_products_by_category] for each row. *)
Record t : Type := mk {
  product_id : string;
  name : string;
  category : string;
  price : Q;
  rating : Q
}.
End CategoryItem.

(** The attributes of a [RecommendationEngine] instance.
    [user_product_matrix] is set to [None] by [__init__] and never
    assigned again. *)
Record RecommendationEngine : Type := mkEngine {
  products_df : list Product.t;
  interactions_df : list Interaction.t;
  user_product_matrix : option (list (list Q));
  product_similarity_matrix : option (list (list Q))
}.

(** What [get_recommendations_for_user] returns is a list of dicts that are
    either trending dicts (new user) or similarity dicts. *)
Inductive Recommendation : Type :=
  | FromTrending (d : Trending.t)
  | FromSimilar (d : Similar.t).

Definition rec_product_id (r : Recommendation) : string :=
  match r with
  | FromTrending d => Trending.product_id d
  | FromSimilar d => Similar.product_id d
  end.

(** ** Effects: methods update [self], the body of a [try] may raise *)

Definition Method (A : Type) : Type :=
  RecommendationEngine → A * RecommendationEngine.

Global Instance method_ret : MRet Method := λ A x self, (x, self).
Global Instance method_bind : MBind Method := λ A B k m self,
  let '(x, self') := m self in k x self'.

Definition get_self : Method RecommendationEngine := λ self, (self, self).
Definition set_interactions_df (df : list Interaction.t) : Method unit :=
  λ self, (tt, mkEngine (products_df self) df (user_product_matrix self)
                        (product_similarity_matrix self)).

Inductive exn : Type := IndexError | KeyError.

Definition Raises (A : Type) : Type := (exn + A)%type.

Global Instance raises_ret : MRet Raises := λ A x, inr x.
Global Instance raises_bind : MBind Raises := λ A B k m,
  match m with inl e => inl e | inr x => k x end.

Definition raise {A : Type} (e : exn) : Raises A := inl e.

(** ** Python and pandas primitives used by the engine *)

Section Primitives.
Context {A : Type}.

(** [list(enumerate(xs))] *)
Definition enumerate (xs : list A) : list (nat * A) :=
  imap (λ i x, (i, x)) xs.

(** Normalisation of one bound of a slice of a sequence of length [len]:
    a negative bound counts from the end, and the result is clamped to
    [0 .. len]. *)
Definition slice_bound (len : nat) (i : Z) : nat :=
  if (i <? 0)%Z then Z.to_nat (i + Z.of_nat len)
  else Z.to_nat i `min` len.

(** [xs[start:stop]] *)
Definition py_slice (xs : list A) (start stop : Z) : list A :=
  let lo := slice_bound (length xs) start in
  let hi := slice_bound (length xs) stop in
  take (hi - lo) (drop lo xs).

(** [sorted(xs, key=key, reverse=True)]: the sort is stable, and with
    [reverse=True] elements with equal keys still keep their original
    relative order.  [x] is placed behind the elements whose key is
    strictly greater, and in front of all others. *)
Fixpoint insert_reverse (key : A → Q) (x : A) (sorted : list A) : list A :=
  match sorted with
  | [] => [x]
  | y :: rest =>
      if Qle_bool (key y) (key x) then x :: y :: rest
      else y :: insert_reverse key x rest
  end.

Fixpoint sorted_reverse (key : A → Q) (xs : list A) : list A :=
  match xs with
  | [] => []
  | x :: rest => insert_reverse key x (sorted_reverse key rest)
  end.

(** [df.nlargest(n, column)] with the default [keep='first']: the [n]
    rows with the largest value, in descending order, rows with equal
    values in row order; no row when [n <= 0]. *)
Definition nlargest (n : Z) (column : A → Q) (df : list A) : list A :=
  if (n <=? 0)%Z then []
  else take (Z.to_nat n) (sorted_reverse column df).

(** [df[mask].index[0]]: the label of the first selected row. *)
Definition first_index (mask : A → bool) (df : list A) : Raises nat :=
  match list_find (λ row, mask row = true) df with
  | Some (i, _) => mret i
  | None => raise IndexError
  end.

(** [xs[i]] on an array and [df.iloc[i]] on a frame, [i >= 0]. *)
Definition getitem (xs : list A) (i : nat) : Raises A :=
  match xs !! i with
  | Some x => mret x
  | None => raise IndexError
  end.
End Primitives.

(** [s.lower()], on ASCII letters. *)
Definition lower_ascii (c : Ascii.ascii) : Ascii.ascii :=
  let n := Ascii.N_of_ascii c in
  if ((65 <=? n) && (n <=? 90))%N then Ascii.ascii_of_N (n + 32) else c.

Fixpoint lower (s : string) : string :=
  match s with
  | EmptyString => EmptyString
  | String c rest => String (lower_ascii c) (lower rest)
  end.

(** ** [get_similar_products] *)

Definition similar_dict (product : Product.t) (score : Q) : Similar.t :=
  {| Similar.product_id := Product.product_id product;
     Similar.name := Product.name product;
     Similar.category := Product.category product;
     Similar.price := Product.price product;
     Similar.rating := Product.rating product;
     Similar.similarity_score := score |}.

(** The loop that turns the selected [(idx, score)] pairs into dicts. *)
Fixpoint similar_rows (df : list Product.t) (similarity_scores : list (nat * Q))
    : Raises (list Similar.t) :=
  match similarity_scores with
  | [] => mret []
  | (idx, score) :: rest =>
      product ← getitem df idx;
      similar_products ← similar_rows df rest;
      mret (similar_dict product score :: similar_products)
  end.

(** The [(idx, score)] pairs kept by the sort and the slice [[1:limit+1]]. *)
Definition selected_scores (row : list Q) (limit : Z) : list (nat * Q) :=
  py_slice (sorted_reverse snd (enumerate row)) 1 (limit + 1).

(** The body of the [try] block. *)
Definition similar_try (df : list Product.t) (matrix : list (list Q))
    (product_id : string) (limit : Z) : Raises (list Similar.t) :=
  product_idx ← first_index (λ p, String.eqb (Product.product_id p) product_id) df;
  row ← getitem matrix product_idx;
  similar_rows df (selected_scores row limit).

Definition get_similar_products (product_id : string) (limit : Z)
    : Method (list Similar.t) :=
  self ← get_self;
  match products_df self, product_similarity_matrix self with
  | [], _ | _, None => mret []
  | df, Some matrix =>
      match similar_try df matrix product_id limit with
      | inr similar_products => mret similar_products
      | inl IndexError | inl KeyError => mret []
      end
  end.

(** ** [get_trending_products] *)

(** [df['views'] * 0.3 + df['purchases'] * 0.5 + df['rating'] * 100 * 0.2] *)
Definition trending_score (row : Product.t) : Q :=
  (inject_Z (Product.views row) * 0.3
   + inject_Z (Product.purchases row) * 0.5
   + Product.rating row * 100 * 0.2)%Q.

Definition trending_dict (row : Product.t) : Trending.t :=
  {| Trending.product_id := Product.product_id row;
     Trending.name := Product.name row;
     Trending.category := Product.category row;
     Trending.price := Product.price row;
     Trending.rating := Product.rating row;
     Trending.views := Product.views row;
     Trending.purchases := Product.purchases row |}.

(** The copy of the frame with the added column [trending_score]: each row
    paired with its score.  The frame of [self] is not touched. *)
Definition with_trending_score (df : list Product.t) : list (Product.t * Q) :=
  (λ row, (row, trending_score row)) <$> df.

Definition get_trending_products (limit : Z) : Method (list Trending.t) :=
  self ← get_self;
  match products_df self with
  | [] => mret []
  | _ :: _ =>
      let df := with_trending_score (products_df self) in
      let trending := nlargest limit snd df in
      mret ((λ row, trending_dict row.1) <$> trending)
  end.

(** ** [get_products_by_category] *)

Definition category_dict (row : Product.t) : CategoryItem.t :=
  {| CategoryItem.product_id := Product.product_id row;
     CategoryItem.name := Product.name row;
     CategoryItem.category := Product.category row;
     CategoryItem.price := Product.price row;
     CategoryItem.rating := Product.rating row |}.

Definition get_products_by_category (category : string) (limit : Z)
    : Method (list CategoryItem.t) :=
  self ← get_self;
  match products_df self with
  | [] => mret []
  | _ :: _ =>
      let category_products :=
        filter (λ row, lower (Product.category row) = lower category)
               (products_df self) in
      let category_products := nlargest limit Product.rating category_products in
      mret (category_dict <$> category_products)
  end.

(** ** [add_user_interaction] *)

(** [now] is the value of [datetime.now().isoformat()] at the call. *)
Definition add_user_interaction (now : string) (user_id product_id : string)
    (interaction_type : string) (rating : option Q) : Method bool :=
  let new_interaction :=
    {| Interaction.user_id := user_id;
       Interaction.product_id := product_id;
       Interaction.interaction_type := interaction_type;
       Interaction.rating := rating;
       Interaction.timestamp := now |} in
  self ← get_self;
  _ ← set_interactions_df (interactions_df self ++ [new_interaction]);
  mret true.

(** ** [get_recommendations_for_user] *)

(** The deduplication loop: [seen] is the set of ids met so far,
    [unique_recommendations] grows at its end. *)
Fixpoint unique_loop (recommendations : list Similar.t) (seen : gset string)
    (unique_recommendations : list Similar.t) : list Similar.t :=
  match recommendations with
  | [] => unique_recommendations
  | rec :: rest =>
      if decide (Similar.product_id rec ∈ seen)
      then unique_loop rest seen unique_recommendations
      else unique_loop rest ({[Similar.product_id rec]} ∪ seen)
                       (unique_recommendations ++ [rec])
  end.

(** The loop over the interacted products:
    [recommendations.extend(self.get_similar_products(product_id, limit=10))] *)
Fixpoint extend_with_similar (ids : list string) (recommendations : list Similar.t)
    : Method (list Similar.t) :=
  match ids with
  | [] => mret recommendations
  | product_id :: rest =>
      similar ← get_similar_products product_id 10;
      extend_with_similar rest (recommendations ++ similar)
  end.

Section Interpreter.
(** [set_iter X] is the order in which [for product_id in X] visits the
    set [X] in the running interpreter. *)
Variable set_iter : gset string → list string.

Definition get_recommendations_for_user (user_id : string) (limit : Z)
    : Method (list Recommendation) :=
  self ← get_self;
  let user_interactions :=
    filter (λ i, Interaction.user_id i = user_id) (interactions_df self) in
  match user_interactions with
  | [] =>
      trending ← get_trending_products limit;
      mret (FromTrending <$> trending)
  | _ :: _ =>
      let interacted_products : gset string :=
        list_to_set (Interaction.product_id <$> user_interactions) in
      recommendations ← extend_with_similar (set_iter interacted_products) [];
      let recommendations :=
        filter (λ rec, Similar.product_id rec ∉ interacted_products)
               recommendations in
      let unique_recommendations := unique_loop recommendations ∅ [] in
      mret (FromSimilar <$> py_slice unique_recommendations 0 limit)
  end.
End Interpreter.

(** An iteration order is one a set can have when it enumerates exactly the
    elements of the set, each once. *)
Definition valid_set_iter (set_iter : gset string → list string) : Prop :=
  ∀ X, set_iter X ≡ₚ elements X.

(** ** Feature encoding and [_compute_product_similarity] *)

(** [pd.get_dummies(column)]: one column per distinct value, the columns in
    ascending order of the values, a 1 in the column of the row's value. *)
Fixpoint insert_category (c : string) (columns : list string) : list string :=
  match columns with
  | [] => [c]
  | d :: rest =>
      if String.eqb c d then columns
      else if String.ltb c d then c :: columns
      else d :: insert_category c rest
  end.

Definition dummy_columns (column : list string) : list string :=
  foldr insert_category [] column.

Definition get_dummies (column : list string) : list (list Q) :=
  (λ c, (λ d, if String.eqb c d then 1%Q else 0%Q) <$> dummy_columns column)
    <$> column.

(** [MinMaxScaler()] of scikit-learn with its default [feature_range=(0, 1)],
    on one column: [fit] computes [data_min_], [data_max_], [data_range_],
    [scale_ = (1 - 0) / data_range_] where a zero range is replaced by 1,
    and [min_ = 0 - data_min_ * scale_]; [transform] maps [x] to
    [x * scale_ + min_].  The scaler is only reached with at least one row
    (see [initialize_models]). *)
Definition data_min (column : list Q) : Q :=
  match column with [] => 0%Q | x :: rest => foldr Qmin x rest end.

Definition data_max (column : list Q) : Q :=
  match column with [] => 0%Q | x :: rest => foldr Qmax x rest end.

Definition handle_zeros_in_scale (scale : Q) : Q :=
  if Qeq_bool scale 0 then 1%Q else scale.

Definition scale_ (column : list Q) : Q :=
  ((1 - 0) / handle_zeros_in_scale (data_max column - data_min column))%Q.

Definition min_ (column : list Q) : Q :=
  (0 - data_min column * scale_ column)%Q.

Definition fit_transform (column : list Q) : list Q :=
  (λ x, x * scale_ column + min_ column)%Q <$> column.

(** [scaler.fit_transform(self.products_df[['price', 'rating']].values)] *)
Definition normalized_features (df : list Product.t) : list (list Q) :=
  zip_with (λ p r, [p; r])
    (fit_transform (Product.price <$> df))
    (fit_transform (Product.rating <$> df)).

(** [np.hstack([category_dummies.values, normalized_features])] *)
Definition features (df : list Product.t) : list (list Q) :=
  zip_with app (get_dummies (Product.category <$> df)) (normalized_features df).

Section Similarity.
(** [sklearn.metrics.pairwise.cosine_similarity]: its values involve
    square roots and are kept abstract. *)
Variable cosine_similarity : list (list Q) → list (list Q).

Definition _compute_product_similarity : Method unit :=
  λ self, (tt, mkEngine (products_df self) (interactions_df self)
                        (user_product_matrix self)
                        (Some (cosine_similarity (features (products_df self))))).

Definition initialize_models : Method unit :=
  self ← get_self;
  match products_df self with
  | [] => mret tt
  | _ :: _ => _compute_product_similarity
  end.

(** [__init__], [catalog] being what [load_data] reads or generates. *)
Definition init (catalog : list Product.t) : RecommendationEngine :=
  (initialize_models (mkEngine catalog [] None None)).2.
End Similarity.

(** ** Vocabulary of the statements *)

(** Rank of two keyed and positioned items in a descending stable order:
    the larger key first and, among equal keys, the smaller position first. *)
Definition before {A : Type} (key : A → Q) (pos : A → nat) (a b : A) : Prop :=
  (key b < key a)%Q ∨ (key a == key b)%Q ∧ pos a < pos b.

(** The same on [(idx, score)] pairs. *)
Definition ranks_before : relation (nat * Q) := before snd fst.

(** Rows [i] and [j] of a frame, ranked by a column. *)
Definition row_before {A : Type} (column : A → Q) (df : list A) (i j : nat) : Prop :=
  ∃ a b, df !! i = Some a ∧ df !! j = Some b ∧
         ((column b < column a)%Q ∨ (column a == column b)%Q ∧ i < j).

(** [d] is the first item of [stream] that carries its product id. *)
Definition first_occurrence (stream : list Similar.t) (d : Similar.t) : Prop :=
  ∃ n, stream !! n = Some d ∧
       ∀ m d', m < n → stream !! m = Some d' →
               Similar.product_id d' ≠ Similar.product_id d.

(** [d] is the dict that [get_similar_products] builds from the pair
    [p = (idx, score)]: the catalog row at position [idx], with [score]. *)
Definition dict_of_row (df : list Product.t) (p : nat * Q) (d : Similar.t) : Prop :=
  ∃ product, df !! p.1 = Some product ∧ d = similar_dict product p.2.

(** The matrix row that a query for [product_id] reads: the row at the
    position of the first catalog row that carries the id. *)
Definition similarity_row (self : RecommendationEngine) (product_id : string)
    : option (list Q) :=
  '(product_idx, _) ← list_find
      (λ p, String.eqb (Product.product_id p) product_id = true) (products_df self);
  matrix ← product_similarity_matrix self;
  matrix !! product_idx.

(** First-seen-wins deduplication by product id, as a recursive function:
    an item is kept when its id is not in [seen]. *)
Fixpoint keep_first (seen : gset string) (stream : list Similar.t) : list Similar.t :=
  match stream with
  | [] => []
  | d :: rest =>
      if decide (Similar.product_id d ∈ seen) then keep_first seen rest
      else d :: keep_first ({[Similar.product_id d]} ∪ seen) rest
  end.

(** The products a user has interacted with, and the candidate stream of
    [get_recommendations_for_user]: the similar products of each of them,
    concatenated in the iteration order, without the interacted ones. *)
Definition interacted_products (self : RecommendationEngine) (user_id : string)
    : gset string :=
  list_to_set (Interaction.product_id <$>
    filter (λ i, Interaction.user_id i = user_id) (interactions_df self)).

Definition candidate_stream (set_iter : gset string → list string)
    (self : RecommendationEngine) (user_id : string) : list Similar.t :=
  filter (λ d, Similar.product_id d ∉ interacted_products self user_id)
    (mjoin ((λ product_id, (get_similar_products product_id 10 self).1)
              <$> set_iter (interacted_products self user_id))).

(** [x'] is the min-max scaled value of [x] in a column whose extrema are
    [mn] and [mx]. *)
Definition min_max_scaled (mn mx x x' : Q) : Prop :=
  (0 <= x' ∧ x' <= 1)%Q ∧
  (mx == mn → x' == 0)%Q ∧
  (¬ (mx == mn)%Q → x' == (x - mn) / (mx - mn))%Q.

(** [mn] and [mx] are the least and the greatest value of a column. *)
Definition column_extrema (column : list Q) (mn mx : Q) : Prop :=
  (∀ x, x ∈ column → mn <= x ∧ x <= mx)%Q ∧
  (∃ x, x ∈ column ∧ x == mn)%Q ∧ (∃ x, x ∈ column ∧ x == mx)%Q.

(** ** Example states *)

(** Four products in two categories, all with the same price and rating. *)
Definition catalog4 : list Product.t :=
  [ Product.mk "P001" "Product 1" "Electronics" 10 4 100 10;
    Product.mk "P002" "Product 2" "Books" 10 4 100 10;
    Product.mk "P003" "Product 3" "Electronics" 10 4 100 10;
    Product.mk "P004" "Product 4" "Books" 10 4 100 10 ].

(** The cosine similarities of [features catalog4]: the feature vectors are
    unit vectors, equal within a category and orthogonal across. *)
Definition matrix4 : list (list Q) :=
  [[1; 0; 1; 0]; [0; 1; 0; 1]; [1; 0; 1; 0]; [0; 1; 0; 1]]%Q.

(** The engine on [catalog4], right after [__init__]. *)
Definition engine4 : RecommendationEngine :=
  mkEngine catalog4 [] None (Some matrix4).

(** The same engine after user [u1] viewed P001 and then P002. *)
Definition engine4_u1 : RecommendationEngine :=
  (add_user_interaction "2024-01-01T10:00:01" "u1" "P002" "view" None
     (add_user_interaction "2024-01-01T10:00:00" "u1" "P001" "view" None
        engine4).2).2.

(** An engine whose catalog is empty, with one recorded interaction. *)
Definition engine0_u1 : RecommendationEngine :=
  (add_user_interaction "2024-01-01T10:00:00" "u1" "P001" "view" None
     (mkEngine [] [] None None)).2.

(** The catalog of the scenario of the specification. *)
Definition catalog3 : list Product.t :=
  [ Product.mk "P1" "Product 1" "Electronics" 100 4.5 1000 50;
    Product.mk "P2" "Product 2" "Electronics" 110 4.0 500 20;
    Product.mk "P3" "Product 3" "Books" 10 5.0 10 1 ].

(** The cosine similarities of [features catalog3], rounded to three
    decimals, and the engine on [catalog3]. *)
Definition matrix3 : list (list Q) :=
  [[1; 0.936; 0.246]; [0.936; 1; 0]; [0.246; 0; 1]]%Q.

Definition engine3 : RecommendationEngine :=
  mkEngine catalog3 [] None (Some matrix3).

(** Dot product of two rows. *)
Definition dot (u v : list Q) : Q := foldr Qplus 0%Q (zip_with Qmult u v).

(** ** [validators/validators.py]

    The constants of [config/constants.py] are parameters of the
    validators.  The values that reach a validator are [None], a [str] or
    a number; Python's conversions of a [str] to a number are parameters
    too. *)

Inductive value : Type :=
  | VNone
  | VStr (s : string)
  | VNum (x : Q).

(** [class ValidationError(Exception)], with its message. *)
Inductive ValidationError : Type := validation_error (message : string).

Definition Validated (A : Type) : Type := (ValidationError + A)%type.

Global Instance validated_ret : MRet Validated := λ A x, inr x.
Global Instance validated_bind : MBind Validated := λ A B k m,
  match m with inl e => inl e | inr x => k x end.

Definition invalid {A : Type} (message : string) : Validated A :=
  inl (validation_error message).

(** [sep.join(xs)] *)
Fixpoint join (sep : string) (xs : list string) : string :=
  match xs with
  | [] => ""
  | [x] => x
  | x :: rest => x +:+ sep +:+ join sep rest
  end.

(** [int(x)] on a number: truncation towards zero. *)
Definition truncate (x : Q) : Z :=
  if Qle_bool 0 x then Qfloor x else Qceiling x.

Module Validator.
Section Constants.
Variable VALID_INTERACTION_TYPES : list string.
Variable VALID_CATEGORIES : list string.
Variable MIN_RATING MAX_RATING : Q.
Variable USER_ID_MIN_LENGTH USER_ID_MAX_LENGTH : Z.
(** [float(s)] and [int(s)] on a [str]; [None] stands for [ValueError]. *)
Variable float_of_str : string → option Q.
Variable int_of_str : string → option Z.
(** The text of a number in an f-string. *)
Variable format_number : Q → string.

(** [not user_id or not isinstance(user_id, str)] holds for every value
    but a non-empty [str]. *)
Definition validate_user_id (user_id : value) : Validated bool :=
  match user_id with
  | VStr s =>
      if String.eqb s "" then invalid "User ID must be a non-empty string"
      else
        let len := Z.of_nat (String.length s) in
        if (len <? USER_ID_MIN_LENGTH)%Z || (USER_ID_MAX_LENGTH <? len)%Z
        then invalid ("User ID must be between " +:+ pretty USER_ID_MIN_LENGTH
                      +:+ " and " +:+ pretty USER_ID_MAX_LENGTH +:+ " characters")
        else mret true
  | _ => invalid "User ID must be a non-empty string"
  end.

Definition validate_product_id (product_id : value) : Validated bool :=
  match product_id with
  | VStr s =>
      if String.eqb s "" then invalid "Product ID must be a non-empty string"
      else if (Z.of_nat (String.length s) <? 1)%Z
      then invalid "Product ID cannot be empty"
      else mret true
  | _ => invalid "Product ID must be a non-empty string"
  end.

(** [float(rating)]; [None] stands for [ValueError] or [TypeError]. *)
Definition float (v : value) : option Q :=
  match v with
  | VNone => None
  | VStr s => float_of_str s
  | VNum x => Some x
  end.

Definition validate_rating (rating : value) : Validated bool :=
  match rating with
  | VNone => mret true
  | _ =>
      match float rating with
      | None => invalid "Rating must be a number"
      | Some rating_float =>
          if negb (Qle_bool MIN_RATING rating_float
                   && Qle_bool rating_float MAX_RATING)
          then invalid ("Rating must be between " +:+ format_number MIN_RATING
                        +:+ " and " +:+ format_number MAX_RATING)
          else mret true
      end
  end.

(** [int(limit)]; [None] stands for [ValueError] or [TypeError]. *)
Definition int (v : value) : option Z :=
  match v with
  | VNone => None
  | VStr s => int_of_str s
  | VNum x => Some (truncate x)
  end.

(** [max_limit] defaults to 50. *)
Definition validate_limit (limit : value) (max_limit : Z) : Validated Z :=
  match int limit with
  | None => invalid "Limit must be an integer"
  | Some limit_int =>
      if (limit_int <? 1)%Z then invalid "Limit must be at least 1"
      else
        let limit_int :=
          if (max_limit <? limit_int)%Z then max_limit else limit_int in
        mret limit_int
  end.

Definition validate_interaction_type (interaction_type : value) : Validated bool :=
  match interaction_type with
  | VStr s =>
      if String.eqb s "" then invalid "Interaction type must be a non-empty string"
      else if negb (bool_decide (s ∈ VALID_INTERACTION_TYPES))
      then invalid ("Invalid interaction type. Must be one of: "
                    +:+ join ", " VALID_INTERACTION_TYPES)
      else mret true
  | _ => invalid "Interaction type must be a non-empty string"
  end.

Definition validate_category (category : value) : Validated bool :=
  match category with
  | VStr s =>
      if String.eqb s "" then invalid "Category must be a non-empty string"
      else
        let category_lower := lower s in
        let valid_categories_lower := lower <$> VALID_CATEGORIES in
        if negb (bool_decide (category_lower ∈ valid_categories_lower))
        then invalid ("Invalid category. Must be one of: "
                      +:+ join ", " VALID_CATEGORIES)
        else mret true
  | _ => invalid "Category must be a non-empty string"
  end.

(** The payload is a dict with [str] keys. *)
Definition validate_interaction_payload (data : gmap string value)
    : Validated (gmap string value) :=
  if bool_decide (data = ∅) then invalid "Request body is required"
  else
    match data !! "user_id" with
    | None => invalid "Missing required field: user_id"
    | Some user_id =>
        match data !! "product_id" with
        | None => invalid "Missing required field: product_id"
        | Some product_id =>
            _ ← validate_user_id user_id;
            _ ← validate_product_id product_id;
            let interaction_type := default (VStr "view") (data !! "interaction_type") in
            _ ← validate_interaction_type interaction_type;
            let rating := default VNone (data !! "rating") in
            _ ← match rating with
                | VNone => mret true
                | _ => validate_rating rating
                end;
            mret ({[ "user_id" := user_id;
                     "product_id" := product_id;
                     "interaction_type" := interaction_type;
                     "rating" := rating ]} : gmap string value)
        end
    end.
End Constants.
End Validator.

(** ** [utils/helpers.py]: the validators that answer with a [bool] *)

Module helpers.
Section Conversions.
Variable float_of_str : string → option Q.

Definition validate_user_id (user_id : value) : bool :=
  match user_id with
  | VStr s => if String.eqb s "" then false else (0 <? String.length s)
  | _ => false
  end.

Definition validate_product_id (product_id : value) : bool :=
  match product_id with
  | VStr s => if String.eqb s "" then false else (0 <? String.length s)
  | _ => false
  end.

Definition validate_rating (rating : value) : bool :=
  match rating with
  | VNone => true
  | VStr s =>
      match float_of_str s with
      | Some rating_float => Qle_bool 0 rating_float && Qle_bool rating_float 5
      | None => false
      end
  | VNum rating_float => Qle_bool 0 rating_float && Qle_bool rating_float 5
  end.
End Conversions.
End helpers.

(** ** [config/config.py]: the limits of [class Config] *)

Module Config.
Definition DEFAULT_PAGE_SIZE : Z := 10.
Definition MAX_PAGE_SIZE : Z := 100.
Definition DEFAULT_RECOMMENDATIONS_LIMIT : Z := 5.
Definition MAX_RECOMMENDATIONS_LIMIT : Z := 50.
End Config.

(** ** [services/recommendation_service.py]

    A method of [RecommendationService] validates its arguments, which may
    raise [ValidationError], and then calls the engine it owns.  The
    arguments have the types of their annotations. *)

Definition Service (A : Type) : Type :=
  RecommendationEngine → Validated A * RecommendationEngine.

Global Instance service_ret : MRet Service := λ A x engine, (inr x, engine).
Global Instance service_bind : MBind Service := λ A B k m engine,
  match m engine with
  | (inl e, engine') => (inl e, engine')
  | (inr x, engine') => k x engine'
  end.

(** A call of a validator, and a call of a method of [self.engine]. *)
Definition validator_call {A : Type} (v : Validated A) : Service A :=
  λ engine, (v, engine).
Definition engine_call {A : Type} (m : Method A) : Service A :=
  λ engine, let '(x, engine') := m engine in (inr x, engine').

Module UserRecommendations.
Record t : Type := mk {
  user_id : string;
  recommendations : list Recommendation;
  count : nat
}.
End UserRecommendations.

Module SimilarProducts.
Record t : Type := mk {
  product_id : string;
  similar_products : list Similar.t;
  count : nat
}.
End SimilarProducts.

Module TrendingProducts.
Record t : Type := mk {
  trending_products : list Trending.t;
  count : nat
}.
End TrendingProducts.

Module CategoryProducts.
Record t : Type := mk {
  category : string;
  products : list CategoryItem.t;
  count : nat
}.
End CategoryProducts.

Module InteractionRecorded.
Record t : Type := mk {
  message : string;
  user_id : string;
  product_id : string;
  interaction_type : string
}.
End InteractionRecorded.

(** The typed arguments as dict values, and back.  The service reads a
    field back only from a validated payload that it built itself. *)
Definition value_of_rating (rating : option Q) : value :=
  match rating with Some x => VNum x | None => VNone end.

Definition str_of_value (v : value) : string :=
  match v with VStr s => s | _ => "" end.

Definition rating_of_value (v : value) : option Q :=
  match v with VNum x => Some x | _ => None end.

(** [d[key]] on a dict that holds the key. *)
Definition item (d : gmap string value) (key : string) : value :=
  default VNone (d !! key).

Module RecommendationService.
Section Service.
Variable VALID_INTERACTION_TYPES : list string.
Variable VALID_CATEGORIES : list string.
Variable MIN_RATING MAX_RATING : Q.
Variable USER_ID_MIN_LENGTH USER_ID_MAX_LENGTH : Z.
Variable float_of_str : string → option Q.
Variable int_of_str : string → option Z.
Variable format_number : Q → string.
Variable set_iter : gset string → list string.

Definition get_user_recommendations (user_id : string) (limit : Z)
    : Service UserRecommendations.t :=
  _ ← validator_call
        (Validator.validate_user_id USER_ID_MIN_LENGTH USER_ID_MAX_LENGTH
           (VStr user_id));
  limit ← validator_call
        (Validator.validate_limit int_of_str (VNum (inject_Z limit))
           Config.MAX_RECOMMENDATIONS_LIMIT);
  recommendations ← engine_call
        (get_recommendations_for_user set_iter user_id limit);
  mret {| UserRecommendations.user_id := user_id;
          UserRecommendations.recommendations := recommendations;
          UserRecommendations.count := length recommendations |}.

(** Below, in the body of each method the name of the method still means
    the method of the engine. *)
Definition get_similar_products (product_id : string) (limit : Z)
    : Service SimilarProducts.t :=
  _ ← validator_call (Validator.validate_product_id (VStr product_id));
  limit ← validator_call
        (Validator.validate_limit int_of_str (VNum (inject_Z limit))
           Config.MAX_RECOMMENDATIONS_LIMIT);
  similar_products ← engine_call (get_similar_products product_id limit);
  mret {| SimilarProducts.product_id := product_id;
          SimilarProducts.similar_products := similar_products;
          SimilarProducts.count := length similar_products |}.

Definition get_trending_products (limit : Z) : Service TrendingProducts.t :=
  limit ← validator_call
        (Validator.validate_limit int_of_str (VNum (inject_Z limit))
           Config.MAX_PAGE_SIZE);
  trending ← engine_call (get_trending_products limit);
  mret {| TrendingProducts.trending_products := trending;
          TrendingProducts.count := length trending |}.

Definition get_products_by_category (category : string) (limit : Z)
    : Service CategoryProducts.t :=
  _ ← validator_call (Validator.validate_category VALID_CATEGORIES (VStr category));
  limit ← validator_call
        (Validator.validate_limit int_of_str (VNum (inject_Z limit))
           Config.MAX_PAGE_SIZE);
  products ← engine_call (get_products_by_category category limit);
  mret {| CategoryProducts.category := category;
          CategoryProducts.products := products;
          CategoryProducts.count := length products |}.

(** [now] is the clock reading of the engine's [add_user_interaction]. *)
Definition add_user_interaction (now : string) (user_id product_id : string)
    (interaction_type : string) (rating : option Q)
    : Service InteractionRecorded.t :=
  let payload : gmap string value :=
    {[ "user_id" := VStr user_id;
       "product_id" := VStr product_id;
       "interaction_type" := VStr interaction_type;
       "rating" := value_of_rating rating ]} in
  validated_data ← validator_call
        (Validator.validate_interaction_payload VALID_INTERACTION_TYPES
           MIN_RATING MAX_RATING USER_ID_MIN_LENGTH USER_ID_MAX_LENGTH
           float_of_str format_number payload);
  _ ← engine_call
        (add_user_interaction now
           (str_of_value (item validated_data "user_id"))
           (str_of_value (item validated_data "product_id"))
           (str_of_value (item validated_data "interaction_type"))
           (rating_of_value (item validated_data "rating")));
  mret {| InteractionRecorded.message := "Interaction recorded successfully";
          InteractionRecorded.user_id :=
            str_of_value (item validated_data "user_id");
          InteractionRecorded.product_id :=
            str_of_value (item validated_data "product_id");
          InteractionRecorded.interaction_type :=
            str_of_value (item validated_data "interaction_type") |}.
End Service.
End RecommendationService.

(** ** Example constants

    The interaction types and the rating bounds are those of the API
    documentation in [api/routes.py], the categories those of
    [_create_sample_products]; the bounds of the length of a user id are
    examples. *)
Definition example_interaction_types : list string :=
  ["view"; "purchase"; "add_to_cart"; "wishlist"].
Definition example_categories : list string :=
  ["Electronics"; "Clothing"; "Books"; "Home & Kitchen"; "Sports"].
Definition no_str_conversion {A : Type} (s : string) : option A := None.
Definition example_format (x : Q) : string := pretty (Qfloor x).

(** * Properties *)

(** ** The stable descending sort *)

Section SortedReverse.
Context {A : Type} (key : A → Q) (pos : A → nat).

Lemma insert_reverse_perm x l : insert_reverse key x l ≡ₚ x :: l.
Proof.
  induction l as [|y l IH]; simpl; [done|].
  destruct (Qle_bool (key y) (key x)); [done|].
  rewrite IH. apply Permutation_swap.
Qed.

Lemma sorted_reverse_perm l : sorted_reverse key l ≡ₚ l.
Proof.
  induction l as [|x l IH]; simpl; [done|].
  by rewrite insert_reverse_perm, IH.
Qed.

Lemma sorted_reverse_length l : length (sorted_reverse key l) = length l.
Proof. by rewrite sorted_reverse_perm. Qed.

Lemma before_of_le x y :
  (key y <= key x)%Q → pos x < pos y → before key pos x y.
Proof.
  intros Hle Hpos. destruct (Qle_lt_or_eq _ _ Hle) as [Hlt|Heq].
  - by left.
  - right. split; [by symmetry|done].
Qed.

Lemma before_key_le x y : before key pos x y → (key y <= key x)%Q.
Proof.
  intros [Hlt|[Heq _]]; [by apply Qlt_le_weak|].
  rewrite Heq. apply Qle_refl.
Qed.

Lemma insert_reverse_sorted x l :
  StronglySorted (before key pos) l →
  Forall (λ y, pos x < pos y) l →
  StronglySorted (before key pos) (insert_reverse key x l).
Proof.
  induction 1 as [|y l Hsorted IH Hy]; intros Hpos; simpl.
  { repeat constructor. }
  apply Forall_cons in Hpos as [Hxy Hpos].
  destruct (Qle_bool (key y) (key x)) eqn:Hle.
  - apply Qle_bool_iff in Hle.
    constructor; [by constructor|].
    constructor; [by apply before_of_le|].
    rewrite Forall_forall in Hy, Hpos |- *. intros z Hz.
    apply before_of_le; [|by apply Hpos].
    eapply Qle_trans; [|exact Hle]. by apply before_key_le, Hy.
  - constructor; [by apply IH|].
    rewrite insert_reverse_perm. constructor; [|done].
    left. apply Qnot_le_lt. intros Hle'.
    apply Qle_bool_iff in Hle'. congruence.
Qed.

Lemma sorted_reverse_sorted l :
  StronglySorted (λ a b, pos a < pos b) l →
  StronglySorted (before key pos) (sorted_reverse key l).
Proof.
  induction 1 as [|x l _ IH Hx]; simpl; [constructor|].
  apply insert_reverse_sorted; [done|].
  by rewrite sorted_reverse_perm.
Qed.
End SortedReverse.

Lemma StronglySorted_sublist {A : Type} (R : relation A) (l1 l2 : list A) :
  l1 `sublist_of` l2 → StronglySorted R l2 → StronglySorted R l1.
Proof.
  induction 1 as [|x l1 l2 Hsub IH|x l1 l2 Hsub IH]; intros Hsorted.
  - constructor.
  - apply StronglySorted_inv in Hsorted as [Hsorted Hx].
    constructor; [by apply IH|].
    rewrite Forall_forall in Hx |- *. intros y Hy.
    apply Hx. by eapply elem_of_sublist.
  - apply StronglySorted_inv in Hsorted as [Hsorted _]. by apply IH.
Qed.

Lemma enumerate_from_sorted {A : Type} (xs : list A) (k : nat) :
  StronglySorted (λ a b : nat * A, a.1 < b.1) (imap (λ i x, (k + i, x)) xs).
Proof.
  revert k. induction xs as [|x xs IH]; intros k; simpl; [constructor|].
  assert (Heq : imap ((λ i y, (k + i, y)) ∘ S) xs
                = imap (λ i y, (S k + i, y)) xs).
  { apply imap_ext. intros i y _. simpl. f_equal. lia. }
  rewrite Heq. constructor; [apply IH|].
  rewrite Forall_forall. intros [j y] Hin.
  apply elem_of_lookup_imap_1 in Hin as (i & z & Heq' & _).
  inversion Heq'; subst. simpl. lia.
Qed.

Lemma enumerate_sorted {A : Type} (xs : list A) :
  StronglySorted (λ a b : nat * A, a.1 < b.1) (enumerate xs).
Proof. apply (enumerate_from_sorted xs 0). Qed.

Lemma enumerate_lookup {A : Type} (xs : list A) (i : nat) (x : A) :
  (i, x) ∈ enumerate xs ↔ xs !! i = Some x.
Proof.
  unfold enumerate. rewrite elem_of_lookup_imap. split.
  - intros (j & y & Heq & Hj). by inversion Heq; subst.
  - intros Hi. by exists i, x.
Qed.

Lemma fmap_snd_enumerate {A : Type} (xs : list A) : snd <$> enumerate xs = xs.
Proof.
  unfold enumerate. rewrite fmap_imap.
  rewrite (imap_ext _ (const id)) by done.
  by rewrite imap_const, list_fmap_id.
Qed.

Lemma fmap_fst_enumerate {A : Type} (xs : list A) :
  fst <$> enumerate xs = seq 0 (length xs).
Proof.
  unfold enumerate. rewrite fmap_imap.
  rewrite (imap_ext _ (λ j _, id j)) by done.
  rewrite (imap_seq_0 xs id). by rewrite list_fmap_id.
Qed.

(** ** Slices *)

Lemma py_slice_sublist {A : Type} (xs : list A) (start stop : Z) :
  py_slice xs start stop `sublist_of` xs.
Proof.
  unfold py_slice. etrans; [apply sublist_take|apply sublist_drop].
Qed.

Lemma py_slice_from_1_length {A : Type} (xs : list A) (k : Z) :
  (1 ≤ k)%Z → (Z.of_nat (length (py_slice xs 1 (k + 1))) ≤ k)%Z.
Proof.
  intros Hk. unfold py_slice, slice_bound.
  destruct (Z.ltb_spec 1 0); [lia|].
  destruct (Z.ltb_spec (k + 1) 0); [lia|].
  rewrite length_take, length_drop. lia.
Qed.

Lemma py_slice_prefix {A : Type} (xs : list A) (limit : Z) :
  (0 ≤ limit)%Z → py_slice xs 0 limit = take (Z.to_nat limit) xs.
Proof.
  intros Hk. unfold py_slice, slice_bound.
  destruct (Z.ltb_spec 0 0); [lia|].
  destruct (Z.ltb_spec limit 0); [lia|].
  change (Z.to_nat 0 `min` length xs) with 0. rewrite drop_0, Nat.sub_0_r.
  destruct (decide (Z.to_nat limit ≤ length xs)).
  - by rewrite Nat.min_l.
  - rewrite Nat.min_r by lia. by rewrite !take_ge by lia.
Qed.

Lemma StronglySorted_Forall2 {A B : Type} (P : A → B → Prop)
    (R : relation A) (R' : relation B) (l : list A) (k : list B) :
  (∀ a b a' b', P a a' → P b b' → R a b → R' a' b') →
  Forall2 P l k → StronglySorted R l → StronglySorted R' k.
Proof.
  intros HR. induction 1 as [|a a' l k Ha Hlk IH]; intros Hsorted.
  { constructor. }
  apply StronglySorted_inv in Hsorted as [Hsorted Hall].
  constructor; [by apply IH|].
  rewrite Forall_forall in Hall. rewrite Forall_forall. intros b' Hb'.
  apply list_elem_of_lookup in Hb' as [i Hi].
  destruct (Forall2_lookup_r _ _ _ _ _ Hlk Hi) as (b & Hb & HP).
  eapply HR; [done..|]. apply Hall. by eapply list_elem_of_lookup_2.
Qed.

(** ** [get_similar_products]: shape of the result *)

Lemma similar_rows_Forall2 df similarity_scores similar_products :
  similar_rows df similarity_scores = inr similar_products →
  Forall2 (dict_of_row df) similarity_scores similar_products.
Proof.
  revert similar_products.
  induction similarity_scores as [|[idx score] rest IH];
    intros similar_products; simpl.
  { intros [= <-]. constructor. }
  unfold getitem. destruct (df !! idx) as [product|] eqn:Hidx; simpl; [|done].
  destruct (similar_rows df rest) as [e|tail]; simpl; [done|].
  intros [= <-]. constructor; [|by apply IH].
  by exists product.
Qed.

Lemma get_similar_products_state product_id limit self :
  (get_similar_products product_id limit self).2 = self.
Proof.
  unfold get_similar_products, mbind, method_bind, get_self, mret, method_ret.
  destruct (products_df self); [done|].
  destruct (product_similarity_matrix self); [|done].
  by destruct (similar_try _ _ _ _) as [[]|].
Qed.

(** Either the query answers with the empty list, or it answers with the
    dicts of the pairs selected from the matrix row of the first catalog
    row that carries the product id. *)
Lemma get_similar_products_inv product_id limit self :
  (get_similar_products product_id limit self).1 = [] ∨
  ∃ matrix product_idx product row,
    product_similarity_matrix self = Some matrix ∧
    list_find (λ p, String.eqb (Product.product_id p) product_id = true)
              (products_df self) = Some (product_idx, product) ∧
    matrix !! product_idx = Some row ∧
    similar_rows (products_df self) (selected_scores row limit)
    = inr (get_similar_products product_id limit self).1.
Proof.
  unfold get_similar_products, mbind, method_bind, get_self, mret, method_ret.
  destruct (products_df self) as [|p0 df] eqn:Hdf; [by left|].
  destruct (product_similarity_matrix self) as [matrix|]; [|by left].
  destruct (similar_try _ _ _ _) as [[]|similar] eqn:Htry; simpl; [by left..|].
  right. unfold similar_try, first_index in Htry.
  destruct (list_find _ _) as [[product_idx product]|] eqn:Hfind; simpl in Htry; [|done].
  unfold getitem in Htry at 1.
  destruct (matrix !! product_idx) as [row|] eqn:Hrow; simpl in Htry; [|done].
  by exists matrix, product_idx, product, row.
Qed.

Lemma selected_scores_sorted row limit :
  StronglySorted ranks_before (selected_scores row limit).
Proof.
  eapply StronglySorted_sublist; [apply py_slice_sublist|].
  apply sorted_reverse_sorted, enumerate_sorted.
Qed.

Lemma selected_scores_lookup row limit idx score :
  (idx, score) ∈ selected_scores row limit → row !! idx = Some score.
Proof.
  intros Hin. apply enumerate_lookup.
  rewrite <- (sorted_reverse_perm snd (enumerate row)).
  eapply elem_of_sublist; [done|apply py_slice_sublist].
Qed.


(** The example matrix is the cosine matrix of the example catalog: every
    feature vector has norm 1 and the dot products are the entries. *)
Example matrix4_cosine :
  Forall (λ u, Qred (dot u u) = 1%Q) (features catalog4) ∧
  (λ u, (λ v, Qred (dot u v)) <$> features catalog4) <$> features catalog4
  = matrix4.
Proof. split; [repeat constructor|reflexivity]. Qed.

Example engine4_init cosine_similarity :
  cosine_similarity (features catalog4) = matrix4 →
  init cosine_similarity catalog4 = engine4.
Proof. intros Hcos. unfold init. simpl. by rewrite Hcos. Qed.

(** C5. For every engine state, every product id and every [k >= 1],
    [get_similar_products(product_id, k)] returns at most [k] dicts, their
    similarity scores never increase along the list, and the dicts are those
    of [(idx, score)] pairs, [idx] a catalog row index and [score] the entry
    at [idx] of the matrix row of the queried product, that are ranked by
    descending score and, for equal scores, by ascending index. *)
Theorem get_similar_products_at_most_k_sorted self product_id k :
  (1 ≤ k)%Z →
  let similar := (get_similar_products product_id k self).1 in
  (Z.of_nat (length similar) ≤ k)%Z ∧
  StronglySorted
    (λ a b, (Similar.similarity_score b <= Similar.similarity_score a)%Q)
    similar ∧
  ∃ similarity_scores : list (nat * Q),
    Forall2 (dict_of_row (products_df self)) similarity_scores similar ∧
    StronglySorted ranks_before similarity_scores ∧
    ∀ p, p ∈ similarity_scores →
         ∃ row, similarity_row self product_id = Some row ∧ row !! p.1 = Some p.2.
Proof.
  intros Hk similar.
  destruct (get_similar_products_inv product_id k self)
    as [Hnil|(matrix & idx & product & row & Hmatrix & Hfind & Hrow & Hrows)].
  { subst similar. rewrite Hnil. simpl. split; [lia|].
    split; [constructor|]. exists [].
    split; [constructor|]. split; [constructor|]. by intros p ?%elem_of_nil. }
  fold similar in Hrows. apply similar_rows_Forall2 in Hrows.
  pose proof (selected_scores_sorted row k) as Hsorted.
  split; [|split].
  - rewrite <- (Forall2_length _ _ _ Hrows).
    by apply py_slice_from_1_length.
  - eapply StronglySorted_Forall2; [|exact Hrows|exact Hsorted].
    intros p q d e (pp & _ & ->) (pq & _ & ->) Hpq. simpl.
    by apply (before_key_le snd fst).
  - exists (selected_scores row k). split; [done|]. split; [done|].
    intros [i score] Hp. exists row. split.
    + unfold similarity_row. rewrite Hfind. simpl. by rewrite Hmatrix.
    + by eapply selected_scores_lookup.
Qed.

Lemma get_similar_products_at_most_k_sorted_witness :
  (1 ≤ 2)%Z ∧
  let similar := (get_similar_products "P001" 2 engine4).1 in
  (Z.of_nat (length similar) ≤ 2)%Z ∧
  StronglySorted
    (λ a b, (Similar.similarity_score b <= Similar.similarity_score a)%Q)
    similar ∧
  ∃ similarity_scores : list (nat * Q),
    Forall2 (dict_of_row (products_df engine4)) similarity_scores similar ∧
    StronglySorted ranks_before similarity_scores ∧
    ∀ p, p ∈ similarity_scores →
         ∃ row, similarity_row engine4 "P001" = Some row ∧ row !! p.1 = Some p.2.
Proof.
  split; [lia|].
  apply (get_similar_products_at_most_k_sorted engine4 "P001" 2). lia.
Defined.

(** C1 fails on the code.  In [engine4] the rows P001 and P003 have equal
    feature vectors, so row 2 of the matrix holds the score 1 at the
    positions 0 and 2; the stable sort puts position 0 first, the slice
    [[1:limit+1]] drops it, and the query for P003, with [limit = 1],
    answers with P003. *)
Theorem get_similar_products_returns_query_product :
  catalog4 !! 2
  = Some (Product.mk "P003" "Product 3" "Electronics" 10 4 100 10) ∧
  similarity_row engine4 "P003" = Some [1; 0; 1; 0]%Q ∧
  sorted_reverse snd (enumerate [1; 0; 1; 0]%Q)
  = [(0, 1%Q); (2, 1%Q); (1, 0%Q); (3, 0%Q)] ∧
  selected_scores [1; 0; 1; 0]%Q 1 = [(2, 1%Q)] ∧
  (get_similar_products "P003" 1 engine4).1
  = [ {| Similar.product_id := "P003"; Similar.name := "Product 3";
         Similar.category := "Electronics"; Similar.price := 10;
         Similar.rating := 4; Similar.similarity_score := 1 |} ].
Proof.
  split; [reflexivity|]. split; [reflexivity|].
  split; [reflexivity|]. split; reflexivity.
Qed.

(** *** When the slice does drop the queried product

    The slice [[1:limit+1]] drops the pair that the sort ranks first.  That
    pair is the one of the queried product when its own entry ranks in
    front of every other entry of its row; with distinct product ids in the
    catalog, the product is then not in the answer. *)

Lemma before_asymmetric {A : Type} (key : A → Q) (pos : A → nat) a b :
  before key pos a b → before key pos b a → False.
Proof. intros [Hab|[Hab Hpos]] [Hba|[Hba Hpos']]; try lra. lia. Qed.

Lemma selected_scores_drop_first row limit :
  selected_scores row limit
    `sublist_of` drop 1 (sorted_reverse snd (enumerate row)).
Proof.
  unfold selected_scores, py_slice, slice_bound.
  destruct (Z.ltb_spec 1 0); [lia|].
  set (ranked := sorted_reverse snd (enumerate row)).
  destruct ranked as [|h tl]; simpl.
  { by rewrite take_nil. }
  change (Z.to_nat 1 `min` S (length tl)) with 1. simpl. apply sublist_take.
Qed.

Lemma selected_scores_excludes_first_ranked row limit idx score :
  row !! idx = Some score →
  (∀ j t, row !! j = Some t → j ≠ idx → ranks_before (idx, score) (j, t)) →
  ∀ p, p ∈ selected_scores row limit → p.1 ≠ idx.
Proof.
  intros Hidx Hfirst p Hp.
  eapply elem_of_sublist in Hp; [|apply selected_scores_drop_first].
  pose proof (sorted_reverse_perm snd (enumerate row)) as Hperm.
  pose proof (sorted_reverse_sorted snd fst _ (enumerate_sorted row)) as Hsorted.
  assert (NoDup (fst <$> sorted_reverse snd (enumerate row))) as Hnodup.
  { rewrite Hperm, fmap_fst_enumerate. apply NoDup_seq. }
  assert ((idx, score) ∈ sorted_reverse snd (enumerate row)) as Hin.
  { rewrite Hperm. by apply enumerate_lookup. }
  destruct (sorted_reverse snd (enumerate row)) as [|[j t] tl]; simpl in Hp.
  { by apply elem_of_nil in Hp. }
  rewrite drop_0 in Hp.
  rewrite fmap_cons in Hnodup. apply NoDup_cons in Hnodup as [Hj Hnodup].
  apply StronglySorted_inv in Hsorted as [_ Hhead].
  rewrite Forall_forall in Hhead.
  assert (j = idx) as ->.
  { apply elem_of_cons in Hin as [[= <- <-]|Hin]; [done|].
    destruct (decide (j = idx)) as [|Hne]; [done|]. exfalso.
    apply (before_asymmetric snd fst (j, t) (idx, score)).
    - by apply Hhead.
    - apply Hfirst; [|done]. apply enumerate_lookup. rewrite <- Hperm. left. }
  intros Heq. apply Hj. apply list_elem_of_fmap. by exists p.
Qed.

(** X21. In a catalog with distinct product ids, a query whose own matrix
    entry ranks in front of every other entry of its row (a larger score,
    or an equal score at a larger index) never returns the queried product,
    whatever the limit. *)
Lemma get_similar_products_excludes_first_ranked self product_id limit :
  NoDup (Product.product_id <$> products_df self) →
  (∀ idx product row,
     products_df self !! idx = Some product →
     Product.product_id product = product_id →
     similarity_row self product_id = Some row →
     ∃ score, row !! idx = Some score ∧
       ∀ j t, row !! j = Some t → j ≠ idx → ranks_before (idx, score) (j, t)) →
  ∀ d, d ∈ (get_similar_products product_id limit self).1 →
       Similar.product_id d ≠ product_id.
Proof.
  intros Hnodup Hfirst d Hd.
  destruct (get_similar_products_inv product_id limit self)
    as [Hnil|(matrix & idx & product & row & Hmatrix & Hfind & Hrow & Hrows)].
  { rewrite Hnil in Hd. by apply elem_of_nil in Hd. }
  assert (similarity_row self product_id = Some row) as Hsim.
  { unfold similarity_row. rewrite Hfind. simpl. by rewrite Hmatrix. }
  apply list_find_Some in Hfind as (Hidx & Hid%String.eqb_eq & _).
  destruct (Hfirst idx product row Hidx Hid Hsim) as (score & Hscore & Hranks).
  apply similar_rows_Forall2 in Hrows.
  apply list_elem_of_lookup in Hd as [n Hn].
  destruct (Forall2_lookup_r _ _ _ _ _ Hrows Hn) as (p & Hp & product' & Hp' & ->).
  simpl. intros Heq.
  eapply (selected_scores_excludes_first_ranked row limit idx); [done..| |].
  - by eapply list_elem_of_lookup_2.
  - eapply NoDup_lookup; [exact Hnodup| |].
    + rewrite list_lookup_fmap, Hp'. simpl. by rewrite Heq.
    + rewrite list_lookup_fmap, Hidx. simpl. by rewrite Hid.
Qed.

(** The scenario of the specification: on [catalog3], the product most
    similar to P1 is P2, and P1 itself is not returned. *)
Example similar_scenario :
  Similar.product_id <$> (get_similar_products "P1" 1 engine3).1 = ["P2"] ∧
  Similar.product_id <$> (get_similar_products "P1" 5 engine3).1 = ["P2"; "P3"].
Proof. split; reflexivity. Qed.

(** ** The read queries leave [self] as it is *)

Lemma get_trending_products_state limit self :
  (get_trending_products limit self).2 = self.
Proof.
  unfold get_trending_products, mbind, method_bind, get_self, mret, method_ret.
  by destruct (products_df self).
Qed.

Lemma get_products_by_category_state category limit self :
  (get_products_by_category category limit self).2 = self.
Proof.
  unfold get_products_by_category, mbind, method_bind, get_self, mret, method_ret.
  by destruct (products_df self).
Qed.

Lemma extend_with_similar_run ids recommendations self :
  extend_with_similar ids recommendations self
  = (recommendations
       ++ mjoin ((λ product_id, (get_similar_products product_id 10 self).1) <$> ids),
     self).
Proof.
  revert recommendations.
  induction ids as [|product_id ids IH]; intros recommendations; simpl.
  { by rewrite app_nil_r. }
  unfold mbind, method_bind.
  pose proof (get_similar_products_state product_id 10 self) as Hstate.
  destruct (get_similar_products product_id 10 self) as [similar self'].
  simpl in *. subst self'. rewrite IH. by rewrite <- (assoc_L (++)).
Qed.

(** ** The deduplication loop *)

Lemma unique_loop_keep_first recommendations seen unique_recommendations :
  unique_loop recommendations seen unique_recommendations
  = unique_recommendations ++ keep_first seen recommendations.
Proof.
  revert seen unique_recommendations.
  induction recommendations as [|d rest IH]; intros seen unique; simpl.
  { by rewrite app_nil_r. }
  destruct (decide _); rewrite IH; [done|].
  by rewrite <- (assoc_L (++)).
Qed.

Lemma keep_first_sublist seen stream : keep_first seen stream `sublist_of` stream.
Proof.
  revert seen. induction stream as [|d rest IH]; intros seen; simpl; [done|].
  destruct (decide _); [by apply sublist_cons|by apply sublist_skip].
Qed.

Lemma keep_first_elem_of seen stream d :
  d ∈ keep_first seen stream ↔
  (Similar.product_id d ∉ seen) ∧ first_occurrence stream d.
Proof.
  revert seen. induction stream as [|d0 rest IH]; intros seen; simpl.
  { split; [by intros ?%elem_of_nil|]. by intros [_ (n & Hn & _)]. }
  destruct (decide (Similar.product_id d0 ∈ seen)) as [Hseen|Hseen].
  - rewrite IH. split.
    + intros [Hd (n & Hn & Hfirst)]. split; [done|].
      exists (S n). split; [done|]. intros [|m] d' Hm Hd'; simpl in Hd'.
      * injection Hd' as <-. congruence.
      * eapply Hfirst; [|done]. lia.
    + intros [Hd (n & Hn & Hfirst)]. split; [done|].
      destruct n as [|n]; simpl in Hn.
      * injection Hn as <-. done.
      * exists n. split; [done|]. intros m d' Hm Hd'.
        apply (Hfirst (S m) d'); [lia|done].
  - rewrite elem_of_cons, IH. split.
    + intros [->|[Hd (n & Hn & Hfirst)]].
      * split; [done|]. exists 0. split; [done|]. intros m d' Hm. lia.
      * apply not_elem_of_union in Hd as [Hd0 Hd].
        split; [done|]. exists (S n). split; [done|].
        intros [|m] d' Hm Hd'; simpl in Hd'.
        -- injection Hd' as <-. intros Heq. apply Hd0, elem_of_singleton.
           by symmetry.
        -- eapply Hfirst; [|done]. lia.
    + intros [Hd (n & Hn & Hfirst)].
      destruct n as [|n]; simpl in Hn.
      * injection Hn as <-. by left.
      * right. split.
        -- assert (Similar.product_id d0 ≠ Similar.product_id d) as Hne
             by (apply (Hfirst 0 d0); [lia|done]).
           apply not_elem_of_union. split; [|done].
           intros Heq%elem_of_singleton. by apply Hne.
        -- exists n. split; [done|]. intros m d' Hm Hd'.
           apply (Hfirst (S m) d'); [lia|done].
Qed.

Lemma keep_first_NoDup seen stream :
  NoDup (Similar.product_id <$> keep_first seen stream).
Proof.
  revert seen. induction stream as [|d rest IH]; intros seen; simpl.
  { constructor. }
  destruct (decide _) as [Hseen|Hseen]; [apply IH|].
  rewrite fmap_cons. constructor; [|apply IH].
  intros (d' & Hid & Hd')%list_elem_of_fmap.
  apply keep_first_elem_of in Hd' as [Hd' _].
  apply Hd', elem_of_union_l, elem_of_singleton. by symmetry.
Qed.

(** ** [get_recommendations_for_user]: the two branches *)

Lemma for_user_new_user set_iter user_id limit self :
  filter (λ i, Interaction.user_id i = user_id) (interactions_df self) = [] →
  get_recommendations_for_user set_iter user_id limit self
  = (FromTrending <$> (get_trending_products limit self).1, self).
Proof.
  intros Hnew.
  unfold get_recommendations_for_user, mbind, method_bind, get_self.
  rewrite Hnew.
  pose proof (get_trending_products_state limit self) as Hstate.
  destruct (get_trending_products limit self) as [trending self'].
  simpl in *. by subst self'.
Qed.

Lemma for_user_known_user set_iter user_id limit self :
  filter (λ i, Interaction.user_id i = user_id) (interactions_df self) ≠ [] →
  get_recommendations_for_user set_iter user_id limit self
  = (FromSimilar <$>
       py_slice (keep_first ∅ (candidate_stream set_iter self user_id)) 0 limit,
     self).
Proof.
  intros Hknown.
  unfold get_recommendations_for_user, mbind, method_bind, get_self.
  unfold candidate_stream, interacted_products.
  destruct (filter _ (interactions_df self)) as [|i0 rest] eqn:Hfilter; [done|].
  rewrite extend_with_similar_run. simpl app.
  by rewrite unique_loop_keep_first.
Qed.

Lemma known_user_filter self user_id :
  (∃ i, i ∈ interactions_df self ∧ Interaction.user_id i = user_id) →
  filter (λ i, Interaction.user_id i = user_id) (interactions_df self) ≠ [].
Proof.
  intros (i & Hi & Huser) Hnil.
  assert (i ∈ filter (λ i, Interaction.user_id i = user_id) (interactions_df self))
    as Hin by by apply list_elem_of_filter.
  rewrite Hnil in Hin. by apply elem_of_nil in Hin.
Qed.



(** C3. Whatever the iteration order, the user and the limit, no dict
    returned by [get_recommendations_for_user] carries the product id of an
    interaction recorded for that user. *)
Theorem for_user_never_returns_interacted set_iter self user_id limit r i :
  r ∈ (get_recommendations_for_user set_iter user_id limit self).1 →
  i ∈ interactions_df self →
  Interaction.user_id i = user_id →
  rec_product_id r ≠ Interaction.product_id i.
Proof.
  intros Hr Hi Huser.
  assert (filter (λ i, Interaction.user_id i = user_id) (interactions_df self) ≠ [])
    as Hknown by (apply known_user_filter; eauto).
  rewrite (for_user_known_user _ _ _ _ Hknown) in Hr. simpl in Hr.
  apply list_elem_of_fmap in Hr as (d & -> & Hd). simpl.
  eapply elem_of_sublist in Hd; [|apply py_slice_sublist].
  eapply elem_of_sublist in Hd; [|apply keep_first_sublist].
  apply list_elem_of_filter in Hd as [Hd _].
  intros Heq. apply Hd. rewrite Heq.
  apply elem_of_list_to_set, list_elem_of_fmap.
  exists i. split; [done|]. by apply list_elem_of_filter.
Qed.

Lemma for_user_never_returns_interacted_witness :
  let r := FromSimilar (similar_dict (Product.mk "P003" "Product 3" "Electronics" 10 4 100 10) 1) in
  let i := Interaction.mk "u1" "P001" "view" None "2024-01-01T10:00:00" in
  r ∈ (get_recommendations_for_user elements "u1" 5 engine4_u1).1 ∧
  i ∈ interactions_df engine4_u1 ∧
  Interaction.user_id i = "u1" ∧
  rec_product_id r ≠ Interaction.product_id i.
Proof.
  intros r i.
  assert (r ∈ (get_recommendations_for_user elements "u1" 5 engine4_u1).1) as Hr.
  { vm_compute. apply list_elem_of_here. }
  assert (i ∈ interactions_df engine4_u1) as Hi by apply list_elem_of_here.
  split; [exact Hr|]. split; [exact Hi|]. split; [reflexivity|].
  exact (for_user_never_returns_interacted elements engine4_u1 "u1" 5 r i
           Hr Hi eq_refl).
Defined.

(** ** Unknown product ids and the empty catalog *)

Lemma get_similar_products_unknown product_id limit self :
  (∀ p, p ∈ products_df self → Product.product_id p ≠ product_id) →
  get_similar_products product_id limit self = ([], self).
Proof.
  intros Hunknown.
  unfold get_similar_products, mbind, method_bind, get_self, mret, method_ret.
  destruct (products_df self) as [|p0 df] eqn:Hdf; [done|].
  destruct (product_similarity_matrix self) as [matrix|]; [|done].
  unfold similar_try, first_index.
  destruct (list_find _ _) as [[idx p]|] eqn:Hfind; [|done].
  apply list_find_Some in Hfind as (Hidx & Heq & _).
  apply String.eqb_eq in Heq.
  destruct (Hunknown p); [|done]. by eapply list_elem_of_lookup_2.
Qed.

Lemma py_slice_nil {A : Type} (start stop : Z) : py_slice (@nil A) start stop = [].
Proof. unfold py_slice. by rewrite drop_nil, take_nil. Qed.

(** C6. A product id carried by no catalog row makes
    [get_similar_products] return the empty list ([IndexError] is caught by
    the [except] clause), and on an empty catalog the four read queries all
    return the empty list.  Each of them returns a list in every state (no
    exception leaves the method) and leaves the state as it is. *)
Theorem unknown_product_or_empty_catalog_gives_empty_list
    set_iter self product_id category user_id limit :
  (∀ p, p ∈ products_df self → Product.product_id p ≠ product_id) →
  get_similar_products product_id limit self = ([], self) ∧
  (products_df self = [] →
   get_trending_products limit self = ([], self) ∧
   get_products_by_category category limit self = ([], self) ∧
   get_recommendations_for_user set_iter user_id limit self = ([], self)).
Proof.
  intros Hunknown. split; [by apply get_similar_products_unknown|].
  intros Hempty.
  assert (get_trending_products limit self = ([], self)) as Htrending.
  { unfold get_trending_products, mbind, method_bind, get_self. by rewrite Hempty. }
  split; [done|]. split.
  { unfold get_products_by_category, mbind, method_bind, get_self.
    by rewrite Hempty. }
  destruct (decide (filter (λ i, Interaction.user_id i = user_id)
                           (interactions_df self) = [])) as [Hnew|Hknown].
  { rewrite for_user_new_user by done. by rewrite Htrending. }
  rewrite for_user_known_user by done. f_equal.
  assert (candidate_stream set_iter self user_id = []) as ->.
  { unfold candidate_stream.
    induction (set_iter (interacted_products self user_id)) as [|x ids IH]; [done|].
    rewrite fmap_cons. simpl mjoin.
    rewrite get_similar_products_unknown; [done|].
    intros p. rewrite Hempty. by intros ?%elem_of_nil. }
  simpl. by rewrite py_slice_nil.
Qed.

Lemma unknown_product_or_empty_catalog_gives_empty_list_witness :
  (∀ p, p ∈ products_df engine0_u1 → Product.product_id p ≠ "P001") ∧
  get_similar_products "P001" 5 engine0_u1 = ([], engine0_u1) ∧
  (products_df engine0_u1 = [] →
   get_trending_products 5 engine0_u1 = ([], engine0_u1) ∧
   get_products_by_category "Books" 5 engine0_u1 = ([], engine0_u1) ∧
   get_recommendations_for_user elements "u1" 5 engine0_u1 = ([], engine0_u1)).
Proof.
  assert (∀ p, p ∈ products_df engine0_u1 → Product.product_id p ≠ "P001")
    as Hunknown.
  { intros p Hp. simpl in Hp. by apply elem_of_nil in Hp. }
  split; [exact Hunknown|].
  exact (unknown_product_or_empty_catalog_gives_empty_list
           elements engine0_u1 "P001" "Books" "u1" 5 Hunknown).
Defined.

(** ** Dependence on the iteration order of the set *)

Lemma valid_set_iter_elements : valid_set_iter elements.
Proof. by intros X. Qed.

Lemma valid_set_iter_reverse : valid_set_iter (reverse ∘ elements).
Proof. intros X. simpl. apply reverse_Permutation. Qed.

(** C8 fails on the code.  [engine4_u1] records P001 and P002 for user
    [u1].  Both orders below are orders in which a set holding these two
    ids can be enumerated, and the two calls, on the same catalog, matrix
    and interaction log, return different lists. *)
Theorem for_user_depends_on_set_iteration_order :
  valid_set_iter elements ∧ valid_set_iter (reverse ∘ elements) ∧
  Similar.product_id <$> candidate_stream elements engine4_u1 "u1"
  = ["P003"; "P004"; "P004"; "P003"] ∧
  Similar.product_id <$> candidate_stream (reverse ∘ elements) engine4_u1 "u1"
  = ["P004"; "P003"; "P003"; "P004"] ∧
  rec_product_id <$> (get_recommendations_for_user elements "u1" 1 engine4_u1).1
  = ["P003"] ∧
  rec_product_id <$>
    (get_recommendations_for_user (reverse ∘ elements) "u1" 1 engine4_u1).1
  = ["P004"].
Proof.
  split; [apply valid_set_iter_elements|].
  split; [apply valid_set_iter_reverse|].
  repeat split; vm_compute; reflexivity.
Qed.

(** ** [add_user_interaction] *)

(** C10. [add_user_interaction] returns [True]; the new log is the old log
    followed by exactly one record, built from the arguments and the
    current time; the catalog and the similarity matrix are the same
    objects as before. *)
Theorem add_user_interaction_appends_one_record
    now user_id product_id interaction_type rating self :
  let result := add_user_interaction now user_id product_id interaction_type
                                     rating self in
  result.1 = true ∧
  interactions_df result.2
  = interactions_df self
      ++ [Interaction.mk user_id product_id interaction_type rating now] ∧
  length (interactions_df result.2) = S (length (interactions_df self)) ∧
  take (length (interactions_df self)) (interactions_df result.2)
  = interactions_df self ∧
  products_df result.2 = products_df self ∧
  product_similarity_matrix result.2 = product_similarity_matrix self.
Proof.
  simpl. split; [done|]. split; [done|].
  split; [rewrite length_app; simpl; lia|].
  split; [by rewrite take_app_length|]. done.
Qed.

(** ** [nlargest] *)

Lemma insert_reverse_fmap {A B : Type} (f : A → B) (key : B → Q) x l :
  insert_reverse key (f x) (f <$> l) = f <$> insert_reverse (key ∘ f) x l.
Proof.
  induction l as [|y l IH]; [done|].
  rewrite fmap_cons. simpl insert_reverse.
  destruct (Qle_bool (key (f y)) (key (f x))); [done|].
  by rewrite fmap_cons, IH.
Qed.

Lemma sorted_reverse_fmap {A B : Type} (f : A → B) (key : B → Q) l :
  sorted_reverse key (f <$> l) = f <$> sorted_reverse (key ∘ f) l.
Proof.
  induction l as [|x l IH]; [done|].
  rewrite fmap_cons. simpl sorted_reverse.
  rewrite IH. apply insert_reverse_fmap.
Qed.

Lemma StronglySorted_fmap_elem_of {A B : Type} (f : A → B)
    (R1 : relation A) (R2 : relation B) (l : list A) :
  (∀ x y, x ∈ l → y ∈ l → R1 x y → R2 (f x) (f y)) →
  StronglySorted R1 l → StronglySorted R2 (f <$> l).
Proof.
  intros HR Hsorted. induction Hsorted as [|x l Hsorted IH Hx]; simpl.
  { constructor. }
  constructor.
  - apply IH. intros y z Hy Hz. apply HR; by right.
  - rewrite Forall_fmap, Forall_forall. rewrite Forall_forall in Hx.
    intros y Hy. simpl. apply HR; [by left|by right|by apply Hx].
Qed.

(** The rows that [nlargest] returns are the rows at the positions [idxs]:
    pairwise distinct positions, as many as asked for or as there are
    rows, in ranking order, and each of them ranked in front of every row
    that is left out. *)
Lemma nlargest_spec {A : Type} (n : Z) (column : A → Q) (df : list A) :
  ∃ idxs : list nat,
    Forall2 (λ i row, df !! i = Some row) idxs (nlargest n column df) ∧
    NoDup idxs ∧
    length idxs = Z.to_nat n `min` length df ∧
    StronglySorted (row_before column df) idxs ∧
    ∀ i j, i ∈ idxs → j ∉ idxs → j < length df → row_before column df i j.
Proof.
  unfold nlargest. destruct (Z.leb_spec n 0) as [Hn|Hn].
  { exists []. split; [constructor|]. split; [constructor|].
    split; [simpl; lia|]. split; [constructor|].
    by intros i j ?%elem_of_nil. }
  set (ranked := sorted_reverse (column ∘ snd) (enumerate df)).
  assert (ranked ≡ₚ enumerate df) as Hperm by apply sorted_reverse_perm.
  assert (StronglySorted (before (column ∘ snd) fst) ranked) as Hsorted
    by apply sorted_reverse_sorted, enumerate_sorted.
  assert (sorted_reverse column df = snd <$> ranked) as Hranked.
  { unfold ranked. rewrite <- sorted_reverse_fmap. by rewrite fmap_snd_enumerate. }
  assert (∀ p, p ∈ ranked → df !! p.1 = Some p.2) as Hlookup.
  { intros [i x] Hp. rewrite Hperm in Hp. by apply enumerate_lookup. }
  assert (∀ p q, p ∈ ranked → q ∈ ranked →
                 before (column ∘ snd) fst p q → row_before column df p.1 q.1)
    as Hbefore.
  { intros p q Hp Hq Hpq. exists p.2, q.2.
    split; [by apply Hlookup|]. split; [by apply Hlookup|]. exact Hpq. }
  assert (NoDup (fst <$> ranked)) as Hnodup.
  { rewrite Hperm, fmap_fst_enumerate. apply NoDup_seq. }
  set (top := take (Z.to_nat n) ranked).
  assert (top `sublist_of` ranked) as Hsub by apply sublist_take.
  exists (fst <$> top). rewrite Hranked, <- fmap_take. fold top.
  split; [|split; [|split; [|split]]].
  - apply Forall2_fmap, Forall_Forall2_diag, Forall_forall.
    intros p Hp. apply Hlookup. by eapply elem_of_sublist.
  - eapply sublist_NoDup; [exact Hnodup|]. by apply fmap_sublist.
  - rewrite length_fmap. unfold top. rewrite length_take.
    rewrite Hperm. unfold enumerate. by rewrite length_imap.
  - eapply StronglySorted_fmap_elem_of;
      [|by eapply StronglySorted_sublist].
    intros p q Hp Hq. apply Hbefore; by eapply elem_of_sublist.
  - intros i j Hi Hj Hlen.
    apply list_elem_of_fmap in Hi as (p & -> & Hp).
    apply lookup_lt_is_Some in Hlen as [y Hy].
    assert ((j, y) ∈ ranked) as Hjy by (rewrite Hperm; by apply enumerate_lookup).
    rewrite <- (take_drop (Z.to_nat n) ranked) in Hjy, Hsorted.
    apply elem_of_app in Hjy as [Hjy|Hjy].
    { destruct Hj. apply list_elem_of_fmap. by exists (j, y). }
    apply (Hbefore p (j, y)).
    + by eapply elem_of_sublist.
    + eapply elem_of_sublist; [exact Hjy|apply sublist_drop].
    + by eapply StronglySorted_app_1_elem_of.
Qed.

(** ** [get_trending_products] *)

Lemma with_trending_score_lookup df i r :
  with_trending_score df !! i = Some r ↔
  ∃ row, df !! i = Some row ∧ r = (row, trending_score row).
Proof.
  unfold with_trending_score. rewrite list_lookup_fmap.
  destruct (df !! i) as [row|]; simpl; split.
  - intros [= <-]. by exists row.
  - by intros (row' & [= <-] & ->).
  - done.
  - by intros (row' & ? & _).
Qed.

Lemma row_before_with_trending_score df i j :
  row_before snd (with_trending_score df) i j →
  row_before trending_score df i j.
Proof.
  intros (a & b & Ha & Hb & Hab).
  apply with_trending_score_lookup in Ha as (ra & Ha & ->).
  apply with_trending_score_lookup in Hb as (rb & Hb & ->).
  by exists ra, rb.
Qed.


(** The scenario of the specification: on [catalog3], [trending(2)] is
    P1 then P2, and the scores are 415, 240 and 103.5. *)
Example trending_scenario :
  Trending.product_id <$> (get_trending_products 2 engine3).1 = ["P1"; "P2"] ∧
  Qred <$> (trending_score <$> catalog3) = [415; 240; 207 # 2]%Q.
Proof. split; reflexivity. Qed.

(** ** Min-max scaling of the numeric columns *)

Lemma foldr_Qmin_spec x rest :
  (∀ y, y ∈ x :: rest → foldr Qmin x rest <= y)%Q ∧
  ∃ y, y ∈ x :: rest ∧ (y == foldr Qmin x rest)%Q.
Proof.
  induction rest as [|z rest [IHle (w & Hw & Heq)]]; simpl.
  { split.
    - intros y ->%list_elem_of_singleton. apply Qle_refl.
    - exists x. split; [left|reflexivity]. }
  split.
  - intros y [->|[->|Hy]%elem_of_cons]%elem_of_cons.
    + eapply Qle_trans; [apply Q.le_min_r|]. apply IHle. left.
    + apply Q.le_min_l.
    + eapply Qle_trans; [apply Q.le_min_r|]. apply IHle. by right.
  - destruct (Q.min_dec z (foldr Qmin x rest)) as [Hz|Hr].
    + exists z. split; [right; left|by symmetry].
    + exists w. split.
      * apply elem_of_cons in Hw as [->|Hw]; [left|right; by right].
      * by rewrite Hr.
Qed.

Lemma foldr_Qmax_spec x rest :
  (∀ y, y ∈ x :: rest → y <= foldr Qmax x rest)%Q ∧
  ∃ y, y ∈ x :: rest ∧ (y == foldr Qmax x rest)%Q.
Proof.
  induction rest as [|z rest [IHle (w & Hw & Heq)]]; simpl.
  { split.
    - intros y ->%list_elem_of_singleton. apply Qle_refl.
    - exists x. split; [left|reflexivity]. }
  split.
  - intros y [->|[->|Hy]%elem_of_cons]%elem_of_cons.
    + eapply Qle_trans; [|apply Q.le_max_r]. apply IHle. left.
    + apply Q.le_max_l.
    + eapply Qle_trans; [|apply Q.le_max_r]. apply IHle. by right.
  - destruct (Q.max_dec z (foldr Qmax x rest)) as [Hz|Hr].
    + exists z. split; [right; left|by symmetry].
    + exists w. split.
      * apply elem_of_cons in Hw as [->|Hw]; [left|right; by right].
      * by rewrite Hr.
Qed.

Lemma data_extrema column x :
  x ∈ column → column_extrema column (data_min column) (data_max column).
Proof.
  destruct column as [|x0 rest]; [by intros ?%elem_of_nil|]. intros _.
  destruct (foldr_Qmin_spec x0 rest) as [Hmin Hmin'].
  destruct (foldr_Qmax_spec x0 rest) as [Hmax Hmax'].
  unfold column_extrema, data_min, data_max. split; [|done].
  intros y Hy. split; [by apply Hmin|by apply Hmax].
Qed.

Lemma fit_transform_scaled column i x :
  column !! i = Some x →
  ∃ x', fit_transform column !! i = Some x' ∧
        min_max_scaled (data_min column) (data_max column) x x'.
Proof.
  intros Hi. unfold fit_transform. rewrite list_lookup_fmap, Hi. simpl.
  eexists. split; [done|].
  assert (x ∈ column) as Hx by by eapply list_elem_of_lookup_2.
  destruct (data_extrema column x Hx) as [Hbounds _].
  destruct (Hbounds x Hx) as [Hlo Hhi].
  unfold min_, scale_, handle_zeros_in_scale.
  set (mn := data_min column) in *. set (mx := data_max column) in *.
  unfold min_max_scaled.
  destruct (Qeq_bool (mx - mn) 0) eqn:Hrange.
  - apply Qeq_bool_iff in Hrange.
    assert (x * ((1 - 0) / 1) + (0 - mn * ((1 - 0) / 1)) == x - mn)%Q as Heq
      by field.
    rewrite Heq. split; [split; lra|]. split; [intros _; lra|].
    intros Hne. destruct Hne. lra.
  - apply Qeq_bool_neq in Hrange.
    assert (x * ((1 - 0) / (mx - mn)) + (0 - mn * ((1 - 0) / (mx - mn)))
            == (x - mn) / (mx - mn))%Q as Heq by (by field).
    rewrite Heq.
    assert (0 < mx - mn)%Q as Hpos.
    { destruct (Qlt_le_dec 0 (mx - mn)) as [|Hle]; [done|].
      destruct Hrange. lra. }
    split; [split|split].
    + apply Qle_shift_div_l; [done|]. lra.
    + apply Qle_shift_div_r; [done|]. lra.
    + intros Hmx. destruct Hrange. lra.
    + intros _. reflexivity.
Qed.



(** On [catalog3] the scaled prices are 0.9, 1 and 0 and the scaled ratings
    0.5, 0 and 1; on [catalog4], whose columns are constant, they are 0. *)
Example normalized_features_examples :
  fmap (M := list) Qred <$> normalized_features catalog3
  = [[9 # 10; 1 # 2]; [1; 0]; [0; 1]]%Q ∧
  fmap (M := list) Qred <$> normalized_features catalog4
  = [[0; 0]; [0; 0]; [0; 0]; [0; 0]]%Q.
Proof. split; reflexivity. Qed.

(** * Further properties of the engine *)

(** ** Closed forms of the queries *)

Lemma get_similar_products_closed product_id limit self :
  (get_similar_products product_id limit self).1
  = match similarity_row self product_id with
    | None => []
    | Some row =>
        match similar_rows (products_df self) (selected_scores row limit) with
        | inr similar_products => similar_products
        | inl _ => []
        end
    end.
Proof.
  unfold get_similar_products, similarity_row.
  unfold mbind at 1, method_bind, get_self, mret, method_ret.
  destruct (products_df self) as [|p0 df] eqn:Hdf; [done|].
  set (catalog := p0 :: df).
  destruct (product_similarity_matrix self) as [matrix|].
  - unfold similar_try, first_index.
    destruct (list_find _ catalog) as [[idx p]|]; [|done].
    unfold getitem. cbn -[selected_scores similar_rows].
    destruct (matrix !! idx) as [row|]; cbn -[selected_scores similar_rows];
      [|done].
    by destruct (similar_rows _ _) as [[]|].
  - by destruct (list_find _ catalog) as [[idx p]|].
Qed.

Lemma similarity_row_ext self1 self2 product_id :
  products_df self1 = products_df self2 →
  product_similarity_matrix self1 = product_similarity_matrix self2 →
  similarity_row self1 product_id = similarity_row self2 product_id.
Proof. unfold similarity_row. by intros -> ->. Qed.

Lemma get_similar_products_ext self1 self2 product_id limit :
  products_df self1 = products_df self2 →
  product_similarity_matrix self1 = product_similarity_matrix self2 →
  (get_similar_products product_id limit self1).1
  = (get_similar_products product_id limit self2).1.
Proof.
  intros Hdf Hmatrix. rewrite !get_similar_products_closed.
  by rewrite (similarity_row_ext self1 self2), Hdf.
Qed.

Lemma get_trending_products_closed limit self :
  (get_trending_products limit self).1
  = (λ row, trending_dict row.1)
      <$> nlargest limit snd (with_trending_score (products_df self)).
Proof.
  unfold get_trending_products, mbind, method_bind, get_self, mret, method_ret.
  destruct (products_df self); [|reflexivity].
  unfold nlargest. simpl. destruct (limit <=? 0)%Z; [done|].
  by rewrite take_nil.
Qed.

Lemma get_products_by_category_closed category limit self :
  (get_products_by_category category limit self).1
  = category_dict
      <$> nlargest limit Product.rating
            (filter (λ row, lower (Product.category row) = lower category)
                    (products_df self)).
Proof.
  unfold get_products_by_category, mbind, method_bind, get_self, mret, method_ret.
  destruct (products_df self); [|reflexivity].
  unfold nlargest. simpl. destruct (limit <=? 0)%Z; [done|].
  by rewrite take_nil.
Qed.

Lemma candidate_stream_ext set_iter self1 self2 user_id :
  products_df self1 = products_df self2 →
  product_similarity_matrix self1 = product_similarity_matrix self2 →
  filter (λ i, Interaction.user_id i = user_id) (interactions_df self1)
  = filter (λ i, Interaction.user_id i = user_id) (interactions_df self2) →
  candidate_stream set_iter self1 user_id = candidate_stream set_iter self2 user_id.
Proof.
  intros Hdf Hmatrix Hlog. unfold candidate_stream, interacted_products.
  rewrite Hlog. f_equal. f_equal. apply list_fmap_ext. intros _ product_id _.
  by apply get_similar_products_ext.
Qed.

Lemma for_user_ext set_iter self1 self2 user_id limit :
  products_df self1 = products_df self2 →
  product_similarity_matrix self1 = product_similarity_matrix self2 →
  filter (λ i, Interaction.user_id i = user_id) (interactions_df self1)
  = filter (λ i, Interaction.user_id i = user_id) (interactions_df self2) →
  (get_recommendations_for_user set_iter user_id limit self1).1
  = (get_recommendations_for_user set_iter user_id limit self2).1.
Proof.
  intros Hdf Hmatrix Hlog.
  destruct (decide (filter (λ i, Interaction.user_id i = user_id)
                           (interactions_df self2) = [])) as [Hnew|Hknown].
  - rewrite !for_user_new_user by congruence. simpl.
    by rewrite !get_trending_products_closed, Hdf.
  - rewrite !for_user_known_user by congruence. simpl.
    by rewrite (candidate_stream_ext set_iter self1 self2).
Qed.

(** ** Recording an interaction and the answers of the queries *)

(** X1. Recording an interaction of one user changes no answer of the
    engine to another user, and no answer of the three catalog queries. *)
Theorem add_user_interaction_keeps_other_answers
    set_iter now user_id product_id interaction_type rating self
    other_user query_id category limit :
  other_user ≠ user_id →
  let self' := (add_user_interaction now user_id product_id interaction_type
                                     rating self).2 in
  (get_recommendations_for_user set_iter other_user limit self').1
  = (get_recommendations_for_user set_iter other_user limit self).1 ∧
  (get_similar_products query_id limit self').1
  = (get_similar_products query_id limit self).1 ∧
  (get_trending_products limit self').1 = (get_trending_products limit self).1 ∧
  (get_products_by_category category limit self').1
  = (get_products_by_category category limit self).1.
Proof.
  intros Hother self'. split; [|split; [|split]].
  - apply for_user_ext; [done..|]. simpl.
    rewrite filter_app. rewrite filter_cons_False by (simpl; congruence).
    by rewrite filter_nil, app_nil_r.
  - by apply get_similar_products_ext.
  - by rewrite !get_trending_products_closed.
  - by rewrite !get_products_by_category_closed.
Qed.

Lemma add_user_interaction_keeps_other_answers_witness :
  "u2" ≠ "u1" ∧
  let self' := (add_user_interaction "2024-01-02T09:00:00" "u1" "P003" "purchase"
                                     (Some 4.5%Q) engine4_u1).2 in
  (get_recommendations_for_user elements "u2" 3 self').1
  = (get_recommendations_for_user elements "u2" 3 engine4_u1).1 ∧
  (get_similar_products "P001" 3 self').1
  = (get_similar_products "P001" 3 engine4_u1).1 ∧
  (get_trending_products 3 self').1 = (get_trending_products 3 engine4_u1).1 ∧
  (get_products_by_category "books" 3 self').1
  = (get_products_by_category "books" 3 engine4_u1).1.
Proof.
  assert ("u2" ≠ "u1") as Hother by discriminate.
  split; [exact Hother|].
  exact (add_user_interaction_keeps_other_answers elements
           "2024-01-02T09:00:00" "u1" "P003" "purchase" (Some 4.5%Q) engine4_u1
           "u2" "P001" "books" 3 Hother).
Defined.

(** ** Where the recommended products come from *)

Lemma nlargest_elem_of {A : Type} n (column : A → Q) (df : list A) x :
  x ∈ nlargest n column df → x ∈ df.
Proof.
  unfold nlargest. destruct (n <=? 0)%Z; [by intros ?%elem_of_nil|].
  intros Hx. eapply elem_of_sublist in Hx; [|apply sublist_take].
  by rewrite sorted_reverse_perm in Hx.
Qed.

Lemma get_similar_products_elem_of product_id limit self d :
  d ∈ (get_similar_products product_id limit self).1 →
  ∃ product, product ∈ products_df self ∧
             Similar.product_id d = Product.product_id product.
Proof.
  intros Hd.
  destruct (get_similar_products_inv product_id limit self)
    as [Hnil|(matrix & idx & product & row & _ & _ & _ & Hrows)].
  { rewrite Hnil in Hd. by apply elem_of_nil in Hd. }
  apply similar_rows_Forall2 in Hrows.
  apply list_elem_of_lookup in Hd as [n Hn].
  destruct (Forall2_lookup_r _ _ _ _ _ Hrows Hn) as (p & _ & product' & Hp' & ->).
  exists product'. split; [by eapply list_elem_of_lookup_2|done].
Qed.

Lemma get_trending_products_elem_of limit self d :
  d ∈ (get_trending_products limit self).1 →
  ∃ product, product ∈ products_df self ∧ d = trending_dict product.
Proof.
  rewrite get_trending_products_closed.
  intros ([row score] & -> & Hrow%nlargest_elem_of)%list_elem_of_fmap.
  unfold with_trending_score in Hrow.
  apply list_elem_of_fmap in Hrow as (product & [= -> ->] & Hproduct).
  by exists product.
Qed.

Lemma candidate_stream_elem_of set_iter self user_id d :
  d ∈ candidate_stream set_iter self user_id →
  (Similar.product_id d ∉ interacted_products self user_id) ∧
  ∃ product_id, product_id ∈ set_iter (interacted_products self user_id) ∧
                d ∈ (get_similar_products product_id 10 self).1.
Proof.
  unfold candidate_stream. intros [Hd Hin]%list_elem_of_filter.
  split; [done|].
  apply list_elem_of_join in Hin as (similar & Hd' & Hsimilar).
  apply list_elem_of_fmap in Hsimilar as (product_id & -> & Hid).
  by exists product_id.
Qed.

Lemma for_user_known_user_elem_of set_iter self user_id limit r :
  filter (λ i, Interaction.user_id i = user_id) (interactions_df self) ≠ [] →
  r ∈ (get_recommendations_for_user set_iter user_id limit self).1 →
  ∃ d, r = FromSimilar d ∧ d ∈ candidate_stream set_iter self user_id.
Proof.
  intros Hknown Hr. rewrite for_user_known_user in Hr by done. simpl in Hr.
  apply list_elem_of_fmap in Hr as (d & -> & Hd). exists d. split; [done|].
  eapply elem_of_sublist in Hd; [|apply py_slice_sublist].
  eapply elem_of_sublist; [exact Hd|apply keep_first_sublist].
Qed.

Lemma interacted_products_elem_of self user_id product_id :
  product_id ∈ interacted_products self user_id ↔
  ∃ i, i ∈ interactions_df self ∧ Interaction.user_id i = user_id ∧
       Interaction.product_id i = product_id.
Proof.
  unfold interacted_products. rewrite elem_of_list_to_set, list_elem_of_fmap.
  split.
  - intros (i & -> & [Huser Hi]%list_elem_of_filter). by exists i.
  - intros (i & Hi & Huser & <-). exists i. split; [done|].
    by apply list_elem_of_filter.
Qed.

(** X2. Once an interaction of a user with a product is recorded, every
    later answer to that user, whatever the limit, consists of similarity
    dicts only (the trending fallback is left for good) and never holds
    the recorded product. *)
Theorem recorded_product_is_never_recommended
    set_iter now user_id product_id interaction_type rating self limit r :
  let self' := (add_user_interaction now user_id product_id interaction_type
                                     rating self).2 in
  r ∈ (get_recommendations_for_user set_iter user_id limit self').1 →
  ∃ d, r = FromSimilar d ∧ Similar.product_id d ≠ product_id.
Proof.
  intros self' Hr.
  set (i := Interaction.mk user_id product_id interaction_type rating now).
  assert (i ∈ interactions_df self') as Hi.
  { simpl. apply elem_of_app. right. apply list_elem_of_here. }
  assert (filter (λ i, Interaction.user_id i = user_id) (interactions_df self') ≠ [])
    as Hknown by (apply known_user_filter; by exists i).
  destruct (for_user_known_user_elem_of _ _ _ _ _ Hknown Hr) as (d & -> & Hd).
  exists d. split; [done|].
  apply candidate_stream_elem_of in Hd as [Hd _].
  intros Heq. apply Hd. apply interacted_products_elem_of. by exists i.
Qed.

Lemma recorded_product_is_never_recommended_witness :
  let self' := (add_user_interaction "2024-01-02T09:00:00" "u2" "P001" "view"
                                     None engine4).2 in
  let r := FromSimilar
             (similar_dict (Product.mk "P003" "Product 3" "Electronics" 10 4 100 10) 1) in
  r ∈ (get_recommendations_for_user elements "u2" 5 self').1 ∧
  ∃ d, r = FromSimilar d ∧ Similar.product_id d ≠ "P001".
Proof.
  intros self' r.
  assert (r ∈ (get_recommendations_for_user elements "u2" 5 self').1) as Hr.
  { vm_compute. apply list_elem_of_here. }
  split; [exact Hr|].
  exact (recorded_product_is_never_recommended elements "2024-01-02T09:00:00"
           "u2" "P001" "view" None engine4 5 r Hr).
Defined.

(** X3. A user without any recorded interaction gets the trending
    products, dict by dict and in the same order, and the engine is left
    as it is. *)
Theorem new_user_gets_trending set_iter self user_id limit :
  (∀ i, i ∈ interactions_df self → Interaction.user_id i ≠ user_id) →
  get_recommendations_for_user set_iter user_id limit self
  = (FromTrending <$> (get_trending_products limit self).1, self).
Proof.
  intros Hnew. apply for_user_new_user.
  induction (interactions_df self) as [|i log IH]; [done|].
  rewrite filter_cons_False by (apply Hnew; left).
  apply IH. intros j Hj. apply Hnew. by right.
Qed.

Lemma new_user_gets_trending_witness :
  (∀ i, i ∈ interactions_df engine4_u1 → Interaction.user_id i ≠ "u2") ∧
  get_recommendations_for_user elements "u2" 2 engine4_u1
  = (FromTrending <$> (get_trending_products 2 engine4_u1).1, engine4_u1).
Proof.
  assert (∀ i, i ∈ interactions_df engine4_u1 → Interaction.user_id i ≠ "u2")
    as Hnew.
  { intros i Hi. simpl in Hi.
    apply elem_of_cons in Hi as [->|Hi]; [discriminate|].
    apply elem_of_cons in Hi as [->|Hi]; [discriminate|].
    by apply elem_of_nil in Hi. }
  split; [exact Hnew|].
  exact (new_user_gets_trending elements engine4_u1 "u2" 2 Hnew).
Defined.

(** X4. Every product that [get_recommendations_for_user] returns is a
    product of the catalog, for a new and for a known user alike, also when
    the log holds interactions with products the catalog does not know. *)
Theorem recommendations_come_from_catalog set_iter self user_id limit r :
  r ∈ (get_recommendations_for_user set_iter user_id limit self).1 →
  ∃ product, product ∈ products_df self ∧
             rec_product_id r = Product.product_id product.
Proof.
  intros Hr.
  destruct (decide (filter (λ i, Interaction.user_id i = user_id)
                           (interactions_df self) = [])) as [Hnew|Hknown].
  - rewrite for_user_new_user in Hr by done. simpl in Hr.
    apply list_elem_of_fmap in Hr as (d & -> & Hd).
    apply get_trending_products_elem_of in Hd as (product & Hproduct & ->).
    by exists product.
  - destruct (for_user_known_user_elem_of _ _ _ _ _ Hknown Hr) as (d & -> & Hd).
    apply candidate_stream_elem_of in Hd as [_ (product_id & _ & Hd)].
    by apply get_similar_products_elem_of in Hd.
Qed.

Lemma recommendations_come_from_catalog_witness :
  let r := FromSimilar
             (similar_dict (Product.mk "P004" "Product 4" "Books" 10 4 100 10) 0) in
  r ∈ (get_recommendations_for_user elements "u1" 5 engine4_u1).1 ∧
  ∃ product, product ∈ products_df engine4_u1 ∧
             rec_product_id r = Product.product_id product.
Proof.
  intros r.
  assert (r ∈ (get_recommendations_for_user elements "u1" 5 engine4_u1).1) as Hr.
  { vm_compute. apply list_elem_of_further, list_elem_of_here. }
  split; [exact Hr|].
  exact (recommendations_come_from_catalog elements engine4_u1 "u1" 5 r Hr).
Defined.

(** X5. A user whose recorded interactions are all with products that the
    catalog does not hold gets the empty list, not the trending products
    (the set is enumerated by a valid iteration order). *)
Theorem only_unknown_interactions_give_empty_list set_iter self user_id limit :
  valid_set_iter set_iter →
  (∃ i, i ∈ interactions_df self ∧ Interaction.user_id i = user_id) →
  (∀ i product, i ∈ interactions_df self → Interaction.user_id i = user_id →
                product ∈ products_df self →
                Product.product_id product ≠ Interaction.product_id i) →
  get_recommendations_for_user set_iter user_id limit self = ([], self).
Proof.
  intros Hvalid Hknown%known_user_filter Hunknown.
  rewrite for_user_known_user by done. f_equal.
  assert (candidate_stream set_iter self user_id = []) as ->.
  { destruct (candidate_stream set_iter self user_id) as [|d stream] eqn:Hstream;
      [done|]. exfalso.
    assert (d ∈ candidate_stream set_iter self user_id) as Hd
      by (rewrite Hstream; left).
    apply candidate_stream_elem_of in Hd as [_ (product_id & Hid & Hd)].
    rewrite (Hvalid _), elem_of_elements in Hid.
    apply interacted_products_elem_of in Hid as (i & Hi & Huser & <-).
    rewrite get_similar_products_unknown in Hd; [by apply elem_of_nil in Hd|].
    intros p Hp. by apply (Hunknown i p). }
  simpl. by rewrite py_slice_nil.
Qed.

Lemma only_unknown_interactions_give_empty_list_witness :
  let self := (add_user_interaction "2024-01-02T09:00:00" "u2" "P999" "view"
                                    None engine4_u1).2 in
  valid_set_iter elements ∧
  (∃ i, i ∈ interactions_df self ∧ Interaction.user_id i = "u2") ∧
  (∀ i product, i ∈ interactions_df self → Interaction.user_id i = "u2" →
                product ∈ products_df self →
                Product.product_id product ≠ Interaction.product_id i) ∧
  get_recommendations_for_user elements "u2" 5 self = ([], self).
Proof.
  intros self.
  assert (∃ i, i ∈ interactions_df self ∧ Interaction.user_id i = "u2") as Hknown.
  { exists (Interaction.mk "u2" "P999" "view" None "2024-01-02T09:00:00").
    split; [|reflexivity].
    simpl. do 2 apply list_elem_of_further. apply list_elem_of_here. }
  assert (∀ i product, i ∈ interactions_df self → Interaction.user_id i = "u2" →
                       product ∈ products_df self →
                       Product.product_id product ≠ Interaction.product_id i)
    as Hunknown.
  { intros i product Hi Huser Hproduct. simpl in Hi, Hproduct.
    repeat (apply elem_of_cons in Hi as [->|Hi]; [try discriminate|]);
      [|by apply elem_of_nil in Hi].
    repeat (apply elem_of_cons in Hproduct as [->|Hproduct]; [discriminate|]).
    by apply elem_of_nil in Hproduct. }
  split; [apply valid_set_iter_elements|]. split; [exact Hknown|].
  split; [exact Hunknown|].
  exact (only_unknown_interactions_give_empty_list elements self "u2" 5
           valid_set_iter_elements Hknown Hunknown).
Defined.

(** ** How many similar products, and how the limit extends an answer *)

Lemma py_slice_from_1 {A : Type} (xs : list A) (k : Z) :
  (0 ≤ k)%Z → py_slice xs 1 (k + 1) = take (Z.to_nat k) (drop 1 xs).
Proof.
  intros Hk. unfold py_slice, slice_bound.
  destruct (Z.ltb_spec 1 0); [lia|].
  destruct (Z.ltb_spec (k + 1) 0); [lia|].
  destruct xs as [|x xs]; simpl length.
  { by rewrite !drop_nil, !take_nil. }
  change (Z.to_nat 1 `min` S (length xs)) with 1.
  destruct (decide (Z.to_nat k ≤ length xs)) as [Hle|Hgt].
  - f_equal. lia.
  - rewrite !take_ge; [done|rewrite length_drop; simpl; lia..].
Qed.

Lemma selected_scores_take row k k' :
  (0 ≤ k ≤ k')%Z →
  selected_scores row k = take (Z.to_nat k) (selected_scores row k').
Proof.
  intros Hk. unfold selected_scores. rewrite !py_slice_from_1 by lia.
  rewrite take_take. f_equal. lia.
Qed.

Lemma selected_scores_length row k :
  (0 ≤ k)%Z →
  length (selected_scores row k) = Z.to_nat k `min` (length row - 1).
Proof.
  intros Hk. unfold selected_scores. rewrite py_slice_from_1 by done.
  rewrite length_take, length_drop, sorted_reverse_length.
  unfold enumerate. by rewrite length_imap.
Qed.

Lemma similar_rows_success df similarity_scores :
  Forall (λ p : nat * Q, p.1 < length df) similarity_scores →
  ∃ similar_products,
    similar_rows df similarity_scores = inr similar_products ∧
    length similar_products = length similarity_scores.
Proof.
  induction 1 as [|[idx score] rest Hidx _ (tail & Htail & Hlen)]; simpl.
  { by exists []. }
  simpl in Hidx. apply lookup_lt_is_Some in Hidx as [product Hproduct].
  unfold getitem. rewrite Hproduct. simpl. rewrite Htail. simpl.
  eexists. split; [done|]. simpl. by rewrite Hlen.
Qed.

Lemma similar_rows_take df similarity_scores similar_products n :
  similar_rows df similarity_scores = inr similar_products →
  similar_rows df (take n similarity_scores) = inr (take n similar_products).
Proof.
  revert similar_products n.
  induction similarity_scores as [|[idx score] rest IH];
    intros similar_products n; simpl.
  { intros [= <-]. by rewrite !take_nil. }
  unfold getitem. destruct (df !! idx) as [product|] eqn:Hidx; simpl; [|done].
  destruct (similar_rows df rest) as [e|tail] eqn:Hrest; simpl; [done|].
  intros [= <-]. destruct n as [|n]; simpl; [done|].
  unfold getitem. rewrite Hidx. simpl. by rewrite (IH tail n).
Qed.

Lemma selected_scores_in_range row k (df : list Product.t) :
  length row = length df →
  Forall (λ p : nat * Q, p.1 < length df) (selected_scores row k).
Proof.
  intros Hlen. apply Forall_forall. intros [idx score] Hp.
  apply selected_scores_lookup in Hp. rewrite <- Hlen.
  by eapply lookup_lt_Some.
Qed.

(** X6. When the matrix row of the queried product has one entry per
    catalog row (as after [__init__]), a query with a limit [k >= 0] returns
    exactly [min(k, N - 1)] dicts, [N] the size of the catalog. *)
Theorem get_similar_products_length self product_id k row :
  similarity_row self product_id = Some row →
  length row = length (products_df self) →
  (0 ≤ k)%Z →
  length (get_similar_products product_id k self).1
  = Z.to_nat k `min` (length (products_df self) - 1).
Proof.
  intros Hrow Hlen Hk. rewrite get_similar_products_closed, Hrow.
  destruct (similar_rows_success (products_df self) (selected_scores row k))
    as (similar & -> & ->); [by apply selected_scores_in_range|].
  by rewrite selected_scores_length, Hlen.
Qed.

Lemma get_similar_products_length_witness :
  similarity_row engine4 "P002" = Some [0; 1; 0; 1]%Q ∧
  length [0; 1; 0; 1]%Q = length (products_df engine4) ∧
  (0 ≤ 10)%Z ∧
  length (get_similar_products "P002" 10 engine4).1
  = Z.to_nat 10 `min` (length (products_df engine4) - 1).
Proof.
  split; [reflexivity|]. split; [reflexivity|]. split; [lia|].
  apply (get_similar_products_length engine4 "P002" 10 [0; 1; 0; 1]%Q);
    [reflexivity|reflexivity|lia].
Defined.

(** X7. Under the same condition on the matrix row, the answer to a limit
    [k] is the first [k] dicts of the answer to any larger limit: raising
    the limit only adds dicts at the end. *)
Theorem get_similar_products_prefix self product_id k k' row :
  similarity_row self product_id = Some row →
  length row = length (products_df self) →
  (0 ≤ k ≤ k')%Z →
  (get_similar_products product_id k self).1
  = take (Z.to_nat k) (get_similar_products product_id k' self).1.
Proof.
  intros Hrow Hlen Hk. rewrite !get_similar_products_closed, Hrow.
  destruct (similar_rows_success (products_df self) (selected_scores row k'))
    as (similar & Hsimilar & _); [by apply selected_scores_in_range|].
  rewrite Hsimilar, (selected_scores_take row k k') by done.
  by rewrite (similar_rows_take _ _ _ _ Hsimilar).
Qed.

Lemma get_similar_products_prefix_witness :
  similarity_row engine3 "P1" = Some [1; 0.936; 0.246]%Q ∧
  length [1; 0.936; 0.246]%Q = length (products_df engine3) ∧
  (0 ≤ 1 ≤ 2)%Z ∧
  (get_similar_products "P1" 1 engine3).1
  = take (Z.to_nat 1) (get_similar_products "P1" 2 engine3).1.
Proof.
  split; [reflexivity|]. split; [reflexivity|]. split; [lia|].
  apply (get_similar_products_prefix engine3 "P1" 1 2 [1; 0.936; 0.246]%Q);
    [reflexivity|reflexivity|lia].
Defined.

Lemma nlargest_take {A : Type} (k k' : Z) (column : A → Q) (df : list A) :
  (k ≤ k')%Z →
  nlargest k column df = take (Z.to_nat k) (nlargest k' column df).
Proof.
  intros Hk. unfold nlargest.
  destruct (Z.leb_spec k 0) as [Hk0|Hk0].
  { replace (Z.to_nat k) with 0 by lia. by rewrite take_0. }
  destruct (Z.leb_spec k' 0); [lia|].
  rewrite take_take. f_equal. lia.
Qed.

(** X8. For the trending products and for the products of a category,
    the answer to a limit is the first [limit] dicts of the answer to any
    larger limit. *)
Theorem trending_and_category_prefix self category k k' :
  (k ≤ k')%Z →
  (get_trending_products k self).1
  = take (Z.to_nat k) (get_trending_products k' self).1 ∧
  (get_products_by_category category k self).1
  = take (Z.to_nat k) (get_products_by_category category k' self).1.
Proof.
  intros Hk.
  rewrite !get_trending_products_closed, !get_products_by_category_closed.
  rewrite <- !fmap_take. by rewrite <- !(nlargest_take k k').
Qed.

Lemma trending_and_category_prefix_witness :
  (1 ≤ 3)%Z ∧
  (get_trending_products 1 engine3).1
  = take (Z.to_nat 1) (get_trending_products 3 engine3).1 ∧
  (get_products_by_category "ELECTRONICS" 1 engine3).1
  = take (Z.to_nat 1) (get_products_by_category "ELECTRONICS" 3 engine3).1.
Proof.
  split; [lia|].
  apply (trending_and_category_prefix engine3 "ELECTRONICS" 1 3). lia.
Defined.

(** ** [get_products_by_category] *)

Lemma filter_fmap {A B : Type} (f : A → B) (P : B → Prop)
    `{!∀ y, Decision (P y)} (l : list A) :
  filter P (f <$> l) = f <$> filter (P ∘ f) l.
Proof.
  induction l as [|x l IH]; [done|].
  rewrite fmap_cons. destruct (decide (P (f x))) as [HP|HP].
  - rewrite !filter_cons_True by done. by rewrite fmap_cons, IH.
  - by rewrite !filter_cons_False by done.
Qed.

Lemma StronglySorted_lt_NoDup {A : Type} (pos : A → nat) (l : list A) :
  StronglySorted (λ a b, pos a < pos b) l → NoDup (pos <$> l).
Proof.
  induction 1 as [|x l _ IH Hx]; [constructor|].
  rewrite fmap_cons. constructor; [|done].
  intros (y & Heq & Hy)%list_elem_of_fmap.
  rewrite Forall_forall in Hx. specialize (Hx y Hy). lia.
Qed.

(** [nlargest] on rows that carry their positions. *)
Lemma nlargest_positions {A : Type} (n : Z) (column : A → Q)
    (rows : list (nat * A)) :
  StronglySorted (λ a b : nat * A, a.1 < b.1) rows →
  ∃ top : list (nat * A),
    nlargest n column (snd <$> rows) = snd <$> top ∧
    (∀ p, p ∈ top → p ∈ rows) ∧
    NoDup (fst <$> top) ∧
    length top = Z.to_nat n `min` length rows ∧
    StronglySorted (before (column ∘ snd) fst) top ∧
    ∀ p q, p ∈ top → q ∈ rows → q.1 ∉ fst <$> top →
           before (column ∘ snd) fst p q.
Proof.
  intros Hpos. unfold nlargest. destruct (Z.leb_spec n 0) as [Hn|Hn].
  { exists []. split; [done|]. split; [by intros p ?%elem_of_nil|].
    split; [constructor|]. split; [simpl; lia|]. split; [constructor|].
    by intros p q ?%elem_of_nil. }
  set (ranked := sorted_reverse (column ∘ snd) rows).
  assert (ranked ≡ₚ rows) as Hperm by apply sorted_reverse_perm.
  assert (StronglySorted (before (column ∘ snd) fst) ranked) as Hsorted
    by by apply sorted_reverse_sorted.
  assert (NoDup (fst <$> ranked)) as Hnodup.
  { rewrite Hperm. by apply StronglySorted_lt_NoDup. }
  exists (take (Z.to_nat n) ranked).
  split; [by rewrite sorted_reverse_fmap, fmap_take|].
  split.
  { intros p Hp. rewrite <- Hperm. eapply elem_of_sublist; [done|apply sublist_take]. }
  split.
  { eapply sublist_NoDup; [exact Hnodup|]. apply fmap_sublist, sublist_take. }
  split; [by rewrite length_take, Hperm|].
  split; [eapply StronglySorted_sublist; [apply sublist_take|done]|].
  intros p q Hp Hq Hnot.
  rewrite <- Hperm, <- (take_drop (Z.to_nat n) ranked) in Hq.
  rewrite <- (take_drop (Z.to_nat n) ranked) in Hsorted.
  apply elem_of_app in Hq as [Hq|Hq].
  { destruct Hnot. apply list_elem_of_fmap. by exists q. }
  by eapply StronglySorted_app_1_elem_of.
Qed.


(** The scenario of the specification: on [catalog3],
    [by_category("electronics", 10)] is P1 (rating 4.5) then P2 (4.0). *)
Example category_scenario :
  CategoryItem.product_id <$> (get_products_by_category "electronics" 10 engine3).1
  = ["P1"; "P2"].
Proof. reflexivity. Qed.

(** ** [__init__] *)


(** * Properties of the validators *)

(** The cases of [tests/test_validators.py], with the example constants. *)
Example validator_tests :
  let user_id := Validator.validate_user_id 1 100 in
  let rating := Validator.validate_rating 0 5 no_str_conversion example_format in
  let limit := Validator.validate_limit no_str_conversion in
  let interaction_type := Validator.validate_interaction_type example_interaction_types in
  let category := Validator.validate_category example_categories in
  user_id (VStr "user123") = inr true ∧
  user_id (VStr "") = invalid "User ID must be a non-empty string" ∧
  user_id VNone = invalid "User ID must be a non-empty string" ∧
  Validator.validate_product_id (VStr "P001") = inr true ∧
  Validator.validate_product_id (VStr "")
  = invalid "Product ID must be a non-empty string" ∧
  rating (VNum 4.5) = inr true ∧
  rating (VNum 6.0) = invalid "Rating must be between 0 and 5" ∧
  rating VNone = inr true ∧
  limit (VNum 10) 50%Z = inr 10%Z ∧
  limit (VNum 100) 50%Z = inr 50%Z ∧
  limit (VNum (-1)) 50%Z = invalid "Limit must be at least 1" ∧
  interaction_type (VStr "view") = inr true ∧
  interaction_type (VStr "invalid_type")
  = invalid "Invalid interaction type. Must be one of: view, purchase, add_to_cart, wishlist" ∧
  category (VStr "Electronics") = inr true ∧
  category (VStr "electronics") = inr true ∧
  category (VStr "InvalidCategory")
  = invalid "Invalid category. Must be one of: Electronics, Clothing, Books, Home & Kitchen, Sports".
Proof. repeat split; reflexivity. Qed.

Lemma truncate_Z (z : Z) : truncate (inject_Z z) = z.
Proof. unfold truncate. destruct (Qle_bool 0 (inject_Z z)); [apply Qfloor_Z|apply Qceiling_Z]. Qed.

Lemma validate_limit_int int_of_str (limit max_limit : Z) :
  Validator.validate_limit int_of_str (VNum (inject_Z limit)) max_limit
  = if (limit <? 1)%Z then invalid "Limit must be at least 1"
    else inr (Z.min limit max_limit).
Proof.
  unfold Validator.validate_limit, Validator.int. rewrite truncate_Z.
  destruct (Z.ltb_spec limit 1); [done|].
  unfold mret, validated_ret. f_equal.
  destruct (Z.ltb_spec max_limit limit); lia.
Qed.

Lemma validate_limit_cases int_of_str limit max_limit :
  match Validator.validate_limit int_of_str limit max_limit with
  | inr n =>
      ∃ l, Validator.int int_of_str limit = Some l ∧ (1 ≤ l)%Z ∧
           n = Z.min l max_limit
  | inl e =>
      Validator.int int_of_str limit = None ∧
      e = validation_error "Limit must be an integer" ∨
      (∃ l, Validator.int int_of_str limit = Some l ∧ (l < 1)%Z) ∧
      e = validation_error "Limit must be at least 1"
  end.
Proof.
  unfold Validator.validate_limit.
  destruct (Validator.int int_of_str limit) as [l|]; [|by left].
  destruct (Z.ltb_spec l 1).
  - right. split; [by exists l|done].
  - simpl. exists l. split; [done|]. split; [done|].
    destruct (Z.ltb_spec max_limit l); lia.
Qed.


(** X12. With [max_limit >= 1], a limit that [validate_limit] returns lies
    between 1 and [max_limit], and validating it again returns it
    unchanged. *)
Theorem validate_limit_idempotent int_of_str limit max_limit n :
  Validator.validate_limit int_of_str limit max_limit = inr n →
  (1 ≤ max_limit)%Z →
  (1 ≤ n ≤ max_limit)%Z ∧
  Validator.validate_limit int_of_str (VNum (inject_Z n)) max_limit = inr n.
Proof.
  intros Hvalid Hmax.
  pose proof (validate_limit_cases int_of_str limit max_limit) as Hspec.
  rewrite Hvalid in Hspec. destruct Hspec as (l & _ & Hl & ->).
  split; [lia|]. rewrite validate_limit_int.
  destruct (Z.ltb_spec (Z.min l max_limit) 1); [lia|]. f_equal. lia.
Qed.

Lemma validate_limit_idempotent_witness :
  Validator.validate_limit no_str_conversion (VNum 72.5) 50 = inr 50%Z ∧
  (1 ≤ 50)%Z ∧
  (1 ≤ 50 ≤ 50)%Z ∧
  Validator.validate_limit no_str_conversion (VNum (inject_Z 50)) 50 = inr 50%Z.
Proof.
  split; [reflexivity|]. split; [lia|].
  apply (validate_limit_idempotent no_str_conversion (VNum 72.5) 50 50);
    [reflexivity|lia].
Defined.

(** ** What a validated payload holds *)

Lemma validate_user_id_inr min_length max_length user_id b :
  Validator.validate_user_id min_length max_length user_id = inr b →
  ∃ s, user_id = VStr s ∧ s ≠ "" ∧
       (min_length ≤ Z.of_nat (String.length s) ≤ max_length)%Z.
Proof.
  unfold Validator.validate_user_id. destruct user_id as [|s|x]; [done| |done].
  destruct (String.eqb_spec s ""); [done|].
  destruct (Z.ltb_spec (Z.of_nat (String.length s)) min_length); [done|].
  destruct (Z.ltb_spec max_length (Z.of_nat (String.length s))); [done|].
  intros _. exists s. split; [done|]. split; [done|lia].
Qed.

Lemma validate_product_id_inr product_id b :
  Validator.validate_product_id product_id = inr b →
  ∃ s, product_id = VStr s ∧ s ≠ "".
Proof.
  unfold Validator.validate_product_id.
  destruct product_id as [|s|x]; [done| |done].
  destruct (String.eqb_spec s ""); [done|]. intros _. by exists s.
Qed.

Lemma validate_interaction_type_inr valid_types interaction_type b :
  Validator.validate_interaction_type valid_types interaction_type = inr b →
  ∃ s, interaction_type = VStr s ∧ s ≠ "" ∧ s ∈ valid_types.
Proof.
  unfold Validator.validate_interaction_type.
  destruct interaction_type as [|s|x]; [done| |done].
  destruct (String.eqb_spec s ""); [done|].
  case_bool_decide; [|done]. intros _. by exists s.
Qed.

Lemma validate_rating_inr min_rating max_rating float_of_str format_number rating b :
  Validator.validate_rating min_rating max_rating float_of_str format_number rating
  = inr b →
  rating = VNone ∨
  ∃ x, Validator.float float_of_str rating = Some x ∧
       (min_rating <= x ∧ x <= max_rating)%Q.
Proof.
  unfold Validator.validate_rating. intros Hvalid.
  destruct rating as [|s|x]; [by left|right..].
  - destruct (Validator.float float_of_str (VStr s)) as [y|]; [|done].
    destruct (Qle_bool min_rating y) eqn:Hlo; [|done].
    destruct (Qle_bool y max_rating) eqn:Hhi; [|done].
    exists y. split; [done|]. by split; apply Qle_bool_iff.
  - simpl in Hvalid.
    destruct (Qle_bool min_rating x) eqn:Hlo; [|done].
    destruct (Qle_bool x max_rating) eqn:Hhi; [|done].
    exists x. split; [done|]. by split; apply Qle_bool_iff.
Qed.



(** ** Letter case of a category *)

Lemma lower_eq_empty s s' : lower s = lower s' → s = "" → s' = "".
Proof. intros Hlower ->. by destruct s'. Qed.



(** ** The [bool] helpers and the raising validators *)

Lemma validate_product_id_true product_id :
  Validator.validate_product_id product_id = inr true ↔
  ∃ s, product_id = VStr s ∧ s ≠ "".
Proof.
  split; [apply validate_product_id_inr|]. intros (s & -> & Hs).
  unfold Validator.validate_product_id.
  destruct (String.eqb_spec s ""); [done|].
  destruct (Z.ltb_spec (Z.of_nat (String.length s)) 1) as [Hlen|]; [|done].
  destruct s; [done|]. simpl in Hlen. lia.
Qed.

Lemma helpers_validate_product_id_true product_id :
  helpers.validate_product_id product_id = true ↔
  ∃ s, product_id = VStr s ∧ s ≠ "".
Proof.
  unfold helpers.validate_product_id. split.
  - destruct product_id as [|s|x]; [done| |done].
    destruct (String.eqb_spec s ""); [done|]. intros _. by exists s.
  - intros (s & -> & Hs). destruct (String.eqb_spec s ""); [done|].
    by destruct s.
Qed.

(** X15. The helpers of [utils/helpers.py] that answer with a [bool]
    accept what the raising validators accept: a product id passes one
    exactly when it passes the other, a user id that the validator accepts
    passes the helper, and a rating passes the helper exactly when it
    passes the validator with the rating bounds 0 and 5. *)
Theorem helpers_agree_with_validator
    min_length max_length float_of_str format_number v :
  (helpers.validate_product_id v = true ↔
   Validator.validate_product_id v = inr true) ∧
  (helpers.validate_user_id v = true ↔
   Validator.validate_product_id v = inr true) ∧
  (Validator.validate_user_id min_length max_length v = inr true →
   helpers.validate_user_id v = true) ∧
  (helpers.validate_rating float_of_str v = true ↔
   Validator.validate_rating 0 5 float_of_str format_number v = inr true).
Proof.
  split; [by rewrite helpers_validate_product_id_true, validate_product_id_true|].
  split.
  { change (helpers.validate_user_id v) with (helpers.validate_product_id v).
    by rewrite helpers_validate_product_id_true, validate_product_id_true. }
  split.
  { intros (s & -> & Hs & _)%validate_user_id_inr.
    change (helpers.validate_user_id (VStr s))
      with (helpers.validate_product_id (VStr s)).
    apply helpers_validate_product_id_true. by exists s. }
  unfold helpers.validate_rating, Validator.validate_rating, Validator.float.
  destruct v as [|s|x]; [done| |].
  - destruct (float_of_str s) as [y|]; [|done].
    by destruct (Qle_bool 0 y && Qle_bool y 5).
  - by destruct (Qle_bool 0 x && Qle_bool x 5).
Qed.

(** * Properties of the service layer *)

Lemma nlargest_length_le {A : Type} n (column : A → Q) (df : list A) :
  length (nlargest n column df) ≤ Z.to_nat n.
Proof.
  unfold nlargest. destruct (n <=? 0)%Z; [simpl; lia|].
  rewrite length_take. lia.
Qed.

Lemma get_similar_products_length_le product_id k self :
  (1 ≤ k)%Z → length (get_similar_products product_id k self).1 ≤ Z.to_nat k.
Proof.
  intros Hk.
  destruct (get_similar_products_inv product_id k self)
    as [->|(matrix & idx & product & row & _ & _ & _ & Hrows)]; [simpl; lia|].
  apply similar_rows_Forall2, Forall2_length in Hrows. rewrite <- Hrows.
  pose proof (py_slice_from_1_length (sorted_reverse snd (enumerate row)) k Hk).
  unfold selected_scores. lia.
Qed.

Lemma for_user_length_le set_iter user_id limit self :
  (0 ≤ limit)%Z →
  length (get_recommendations_for_user set_iter user_id limit self).1
  ≤ Z.to_nat limit.
Proof.
  intros Hlimit.
  destruct (decide (filter (λ i, Interaction.user_id i = user_id)
                           (interactions_df self) = [])) as [Hnew|Hknown].
  - rewrite for_user_new_user by done. simpl.
    rewrite length_fmap, get_trending_products_closed, length_fmap.
    apply nlargest_length_le.
  - rewrite for_user_known_user by done. simpl.
    rewrite length_fmap, py_slice_prefix, length_take by done. lia.
Qed.

Lemma get_recommendations_for_user_state set_iter user_id limit self :
  (get_recommendations_for_user set_iter user_id limit self).2 = self.
Proof.
  destruct (decide (filter (λ i, Interaction.user_id i = user_id)
                           (interactions_df self) = [])) as [Hnew|Hknown].
  - by rewrite for_user_new_user.
  - by rewrite for_user_known_user.
Qed.

Lemma validate_product_id_str s :
  Validator.validate_product_id (VStr s)
  = if String.eqb s "" then invalid "Product ID must be a non-empty string"
    else inr true.
Proof.
  unfold Validator.validate_product_id.
  destruct (String.eqb_spec s ""); [done|].
  destruct (Z.ltb_spec (Z.of_nat (String.length s)) 1) as [Hlen|]; [|done].
  destruct s; [done|]. simpl in Hlen. lia.
Qed.

(** X16. [RecommendationService.get_similar_products] never changes the
    engine.  It raises [ValidationError] exactly when the product id is
    empty or the limit is below 1; otherwise it answers with what the
    engine returns for the limit cut down to [MAX_RECOMMENDATIONS_LIMIT],
    with [count] the length of that list, which is at most 50. *)
Theorem service_get_similar_products_spec int_of_str product_id limit engine :
  match RecommendationService.get_similar_products int_of_str product_id limit
          engine with
  | (inl _, engine') => engine' = engine ∧ (product_id = "" ∨ (limit < 1)%Z)
  | (inr response, engine') =>
      engine' = engine ∧ product_id ≠ "" ∧ (1 ≤ limit)%Z ∧
      response
      = (let similar_products :=
           (get_similar_products product_id (Z.min limit 50) engine).1 in
         SimilarProducts.mk product_id similar_products (length similar_products)) ∧
      SimilarProducts.count response ≤ 50
  end.
Proof.
  unfold RecommendationService.get_similar_products, mbind, service_bind,
    validator_call, engine_call.
  rewrite validate_product_id_str, validate_limit_int.
  destruct (String.eqb_spec product_id ""); [simpl; split; [done|by left]|].
  destruct (Z.ltb_spec limit 1); [simpl; split; [done|by right]|].
  change Config.MAX_RECOMMENDATIONS_LIMIT with 50%Z.
  pose proof (get_similar_products_state product_id (Z.min limit 50) engine) as Hstate.
  pose proof (get_similar_products_length_le product_id (Z.min limit 50) engine)
    as Hlen.
  destruct (get_similar_products product_id (Z.min limit 50) engine)
    as [similar engine'].
  simpl in *. subst engine'. repeat split; [done..|]. lia.
Qed.



(** ** Recording an interaction through the service *)

Lemma validate_user_id_str_cases min_length max_length s :
  match Validator.validate_user_id min_length max_length (VStr s) with
  | inl _ =>
      ¬ (s ≠ "" ∧ (min_length ≤ Z.of_nat (String.length s) ≤ max_length)%Z)
  | inr _ => s ≠ "" ∧ (min_length ≤ Z.of_nat (String.length s) ≤ max_length)%Z
  end.
Proof.
  unfold Validator.validate_user_id.
  destruct (String.eqb_spec s ""); [by intros [? _]|].
  destruct (Z.ltb_spec (Z.of_nat (String.length s)) min_length);
    [simpl; intros [_ ?]; lia|].
  destruct (Z.ltb_spec max_length (Z.of_nat (String.length s)));
    [simpl; intros [_ ?]; lia|].
  simpl. split; [done|lia].
Qed.

Lemma validate_interaction_type_str_cases valid_types s :
  match Validator.validate_interaction_type valid_types (VStr s) with
  | inl _ => ¬ (s ≠ "" ∧ s ∈ valid_types)
  | inr _ => s ≠ "" ∧ s ∈ valid_types
  end.
Proof.
  unfold Validator.validate_interaction_type.
  destruct (String.eqb_spec s ""); [by intros [? _]|].
  case_bool_decide; simpl; [done|by intros [_ ?]].
Qed.

Lemma validate_rating_cases min_rating max_rating float_of_str format_number rating :
  match match value_of_rating rating with
        | VNone => mret true
        | _ => Validator.validate_rating min_rating max_rating float_of_str
                 format_number (value_of_rating rating)
        end with
  | inl _ =>
      ∃ x, rating = Some x ∧ ¬ (min_rating <= x ∧ x <= max_rating)%Q
  | inr _ =>
      match rating with
      | None => True
      | Some x => (min_rating <= x ∧ x <= max_rating)%Q
      end
  end.
Proof.
  destruct rating as [x|]; simpl; [|done].
  destruct (Qle_bool min_rating x) eqn:Hlo; simpl.
  - destruct (Qle_bool x max_rating) eqn:Hhi; simpl.
    + by split; apply Qle_bool_iff.
    + exists x. split; [done|]. intros [_ Hle%Qle_bool_iff]. congruence.
  - exists x. split; [done|]. intros [Hle%Qle_bool_iff _]. congruence.
Qed.


(** * The one-hot columns of the feature rows *)

Lemma ascii_compare_lt_trans a b c :
  Ascii.compare a b = Lt → Ascii.compare b c = Lt → Ascii.compare a c = Lt.
Proof.
  unfold Ascii.compare. rewrite !N.compare_lt_iff. apply N.lt_trans.
Qed.

Lemma string_compare_lt_trans s1 s2 s3 :
  String.compare s1 s2 = Lt → String.compare s2 s3 = Lt →
  String.compare s1 s3 = Lt.
Proof.
  revert s2 s3. induction s1 as [|a s1 IH]; intros [|b s2] [|c s3]; simpl;
    try done.
  destruct (Ascii.compare a b) eqn:Hab; [|intros _|done].
  - apply Ascii.compare_eq_iff in Hab as ->.
    destruct (Ascii.compare b c); [apply IH|done..].
  - destruct (Ascii.compare b c) eqn:Hbc; [|intros _|done].
    + apply Ascii.compare_eq_iff in Hbc as <-. by rewrite Hab.
    + by rewrite (ascii_compare_lt_trans a b c).
Qed.

Lemma string_compare_refl s : String.compare s s = Eq.
Proof.
  induction s as [|a s IH]; simpl; [done|].
  unfold Ascii.compare. by rewrite N.compare_refl.
Qed.

Lemma string_ltb_trans s1 s2 s3 :
  String.ltb s1 s2 = true → String.ltb s2 s3 = true → String.ltb s1 s3 = true.
Proof.
  unfold String.ltb.
  destruct (String.compare s1 s2) eqn:H12; [done| |done].
  destruct (String.compare s2 s3) eqn:H23; [done| |done].
  by rewrite (string_compare_lt_trans s1 s2 s3).
Qed.

Lemma string_ltb_irrefl s : String.ltb s s = false.
Proof. unfold String.ltb. by rewrite string_compare_refl. Qed.

Lemma string_ltb_total s1 s2 :
  String.eqb s1 s2 = false → String.ltb s1 s2 = false → String.ltb s2 s1 = true.
Proof.
  unfold String.ltb. intros Hne%String.eqb_neq.
  rewrite (String.compare_antisym s2 s1).
  destruct (String.compare s1 s2) eqn:Hcmp; [|done..].
  by apply String.compare_eq_iff in Hcmp.
Qed.

Lemma insert_category_elem_of c columns x :
  x ∈ insert_category c columns ↔ x = c ∨ x ∈ columns.
Proof.
  induction columns as [|d rest IH]; simpl.
  { by rewrite list_elem_of_singleton, elem_of_nil; tauto. }
  destruct (String.eqb_spec c d) as [->|Hne].
  { rewrite elem_of_cons. tauto. }
  destruct (String.ltb c d).
  - by rewrite elem_of_cons.
  - rewrite !elem_of_cons, IH. tauto.
Qed.

Lemma insert_category_sorted c columns :
  StronglySorted (λ a b, String.ltb a b = true) columns →
  StronglySorted (λ a b, String.ltb a b = true) (insert_category c columns).
Proof.
  induction 1 as [|d rest Hsorted IH Hd]; simpl.
  { repeat constructor. }
  destruct (String.eqb c d) eqn:Heq; [by constructor|].
  destruct (String.ltb c d) eqn:Hlt.
  - constructor; [by constructor|]. constructor; [done|].
    rewrite Forall_forall in Hd |- *. intros x Hx.
    eapply string_ltb_trans; [exact Hlt|by apply Hd].
  - constructor; [done|]. rewrite Forall_forall in Hd |- *.
    intros x [->|Hx]%insert_category_elem_of; [|by apply Hd].
    by apply string_ltb_total.
Qed.

Lemma dummy_columns_sorted column :
  StronglySorted (λ a b, String.ltb a b = true) (dummy_columns column).
Proof.
  unfold dummy_columns. induction column as [|c column IH]; simpl.
  - constructor.
  - by apply insert_category_sorted.
Qed.

Lemma dummy_columns_elem_of column x :
  x ∈ dummy_columns column ↔ x ∈ column.
Proof.
  unfold dummy_columns. induction column as [|c column IH]; simpl; [done|].
  by rewrite insert_category_elem_of, elem_of_cons, IH.
Qed.

Lemma dummy_columns_NoDup column : NoDup (dummy_columns column).
Proof.
  induction (dummy_columns_sorted column) as [|d rest _ IH Hd]; constructor;
    [|done].
  intros Hin. rewrite Forall_forall in Hd.
  specialize (Hd d Hin). by rewrite string_ltb_irrefl in Hd.
Qed.

Lemma one_hot_row (columns : list string) (c : string) (k : nat) :
  NoDup columns → columns !! k = Some c →
  (λ d, if String.eqb c d then 1%Q else 0%Q) <$> columns
  = <[k := 1%Q]> (replicate (length columns) 0%Q).
Proof.
  intros Hnodup Hk. apply list_eq. intros j.
  rewrite list_lookup_fmap, list_lookup_insert, length_replicate.
  destruct (columns !! j) as [d|] eqn:Hj; simpl.
  - apply lookup_lt_Some in Hk as Hlt. apply lookup_lt_Some in Hj as Hlt'.
    case_decide as Hkj.
    + destruct Hkj as [<- _]. rewrite Hk in Hj. injection Hj as <-.
      by rewrite String.eqb_refl.
    + rewrite lookup_replicate_2 by done.
      destruct (String.eqb_spec c d) as [<-|]; [|done].
      destruct Hkj. split; [|done]. by eapply NoDup_lookup.
  - apply lookup_ge_None in Hj. case_decide as Hkj.
    + destruct Hkj as [<- _]. apply lookup_lt_Some in Hk. lia.
    + symmetry. apply lookup_replicate_None. lia.
Qed.

(** X20. The category part of a feature row is one-hot.  The columns are
    the distinct categories of the catalog, each once, in ascending order;
    the row of a product holds a 1 in the column of its category and 0 in
    every other column, and is followed by the scaled price and the scaled
    rating, so that every feature row has as many entries as there are
    distinct categories, plus two. *)
Theorem category_columns_are_one_hot df i product :
  df !! i = Some product →
  let columns := dummy_columns (Product.category <$> df) in
  NoDup columns ∧
  StronglySorted (λ a b, String.ltb a b = true) columns ∧
  (∀ c, c ∈ columns ↔ ∃ row, row ∈ df ∧ Product.category row = c) ∧
  ∃ k p r,
    columns !! k = Some (Product.category product) ∧
    get_dummies (Product.category <$> df) !! i
    = Some (<[k := 1%Q]> (replicate (length columns) 0%Q)) ∧
    features df !! i
    = Some (<[k := 1%Q]> (replicate (length columns) 0%Q) ++ [p; r]) ∧
    length (<[k := 1%Q]> (replicate (length columns) 0%Q) ++ [p; r])
    = length columns + 2.
Proof.
  intros Hi columns.
  assert (NoDup columns) as Hnodup by apply dummy_columns_NoDup.
  split; [done|]. split; [apply dummy_columns_sorted|]. split.
  { intros c. unfold columns. rewrite dummy_columns_elem_of, list_elem_of_fmap.
    split; intros (row & ? & ?); by exists row. }
  assert (Product.category product ∈ columns) as Hin.
  { apply dummy_columns_elem_of, list_elem_of_fmap. exists product.
    split; [done|]. by eapply list_elem_of_lookup_2. }
  apply list_elem_of_lookup in Hin as [k Hk].
  assert (get_dummies (Product.category <$> df) !! i
          = Some (<[k := 1%Q]> (replicate (length columns) 0%Q))) as Hdummies.
  { unfold get_dummies. rewrite !list_lookup_fmap, Hi. simpl. f_equal.
    by apply one_hot_row. }
  destruct (fit_transform_scaled (Product.price <$> df) i (Product.price product))
    as (p & Hp & _); [by rewrite list_lookup_fmap, Hi|].
  destruct (fit_transform_scaled (Product.rating <$> df) i (Product.rating product))
    as (r & Hr & _); [by rewrite list_lookup_fmap, Hi|].
  exists k, p, r. split; [done|]. split; [done|]. split.
  - unfold features, normalized_features.
    by rewrite !lookup_zip_with, Hdummies, Hp, Hr.
  - rewrite length_app, length_insert, length_replicate. simpl. lia.
Qed.

Lemma category_columns_are_one_hot_witness :
  let product := Product.mk "P3" "Product 3" "Books" 10 5.0 10 1 in
  catalog3 !! 2 = Some product ∧
  let columns := dummy_columns (Product.category <$> catalog3) in
  NoDup columns ∧
  StronglySorted (λ a b, String.ltb a b = true) columns ∧
  (∀ c, c ∈ columns ↔ ∃ row, row ∈ catalog3 ∧ Product.category row = c) ∧
  ∃ k p r,
    columns !! k = Some (Product.category product) ∧
    get_dummies (Product.category <$> catalog3) !! 2
    = Some (<[k := 1%Q]> (replicate (length columns) 0%Q)) ∧
    features catalog3 !! 2
    = Some (<[k := 1%Q]> (replicate (length columns) 0%Q) ++ [p; r]) ∧
    length (<[k := 1%Q]> (replicate (length columns) 0%Q) ++ [p; r])
    = length columns + 2.
Proof.
  intros product. split; [reflexivity|].
  apply (category_columns_are_one_hot catalog3 2 product). reflexivity.
Defined.

(** * The queried product and its own answer *)

Lemma get_similar_products_excludes_first_ranked_witness :
  let d := similar_dict (Product.mk "P2" "Product 2" "Electronics" 110 4.0 500 20)
                        0.936 in
  NoDup (Product.product_id <$> products_df engine3) ∧
  (∀ idx product row,
     products_df engine3 !! idx = Some product →
     Product.product_id product = "P1" →
     similarity_row engine3 "P1" = Some row →
     ∃ score, row !! idx = Some score ∧
       ∀ j t, row !! j = Some t → j ≠ idx → ranks_before (idx, score) (j, t)) ∧
  d ∈ (get_similar_products "P1" 1 engine3).1 ∧
  Similar.product_id d ≠ "P1".
Proof.
  intros d.
  assert (NoDup (Product.product_id <$> products_df engine3)) as Hnodup.
  { apply (bool_decide_unpack _). by vm_compute. }
  assert (∀ idx product row,
            products_df engine3 !! idx = Some product →
            Product.product_id product = "P1" →
            similarity_row engine3 "P1" = Some row →
            ∃ score, row !! idx = Some score ∧
              ∀ j t, row !! j = Some t → j ≠ idx →
                     ranks_before (idx, score) (j, t)) as Hfirst.
  { intros idx product row Hidx Hid [= <-].
    destruct idx as [|[|[|idx]]]; simpl in Hidx; try done;
      injection Hidx as <-; try discriminate Hid.
    exists 1%Q. split; [done|]. intros j t Hj Hne.
    destruct j as [|[|[|j]]]; simpl in Hj; try done;
      injection Hj as <-; left; reflexivity. }
  assert (d ∈ (get_similar_products "P1" 1 engine3).1) as Hd.
  { vm_compute. apply list_elem_of_here. }
  split; [exact Hnodup|]. split; [exact Hfirst|]. split; [exact Hd|].
  exact (get_similar_products_excludes_first_ranked engine3 "P1" 1
           Hnodup Hfirst d Hd).
Defined.
